(** * simple_email_confirmation/models.py: a shallow embedding

    The module keeps one database table of [EmailAddress] rows, reads and
    writes the [User] row of the account model, dispatches three signals,
    reads the wall clock ([timezone.now]) and draws random characters
    ([get_random_string]).  All of this is threaded explicitly through a
    state-and-exception monad over a [World]; the parts that the program
    only consumes (settings, clock readings, random characters) live in a
    read-only [Env]. *)

From Stdlib Require Import ZArith List String Ascii Bool Lia.
Import ListNotations.

Local Open Scope string_scope.
Local Open Scope list_scope.

(** ** Exceptions and outcomes *)

(** The exceptions the module raises itself ([exceptions.py]) together with
    the Django ones that can escape from the ORM calls it makes.
    [DoesNotExist] is the spec's NotFound, [IntegrityError] its
    DuplicateAddress. *)
Inductive Exn : Type :=
| DoesNotExist
| MultipleObjectsReturned
| IntegrityError
| DatabaseError
| ValueError
| EmailConfirmationExpired
| EmailIsPrimary
| EmailNotConfirmed.

Definition Exn_eqb (e e' : Exn) : bool :=
  match e, e' with
  | DoesNotExist, DoesNotExist
  | MultipleObjectsReturned, MultipleObjectsReturned
  | IntegrityError, IntegrityError
  | DatabaseError, DatabaseError
  | ValueError, ValueError
  | EmailConfirmationExpired, EmailConfirmationExpired
  | EmailIsPrimary, EmailIsPrimary
  | EmailNotConfirmed, EmailNotConfirmed => true
  | _, _ => false
  end.

Inductive Outcome (A : Type) : Type :=
| Returns (a : A)
| Raises (e : Exn).
Arguments Returns {A} a.
Arguments Raises {A} e.

(** ** The state-and-exception monad

    A raised exception keeps the state reached so far: nothing in the
    module opens a transaction, so writes and signals that happened before
    the exception stay. *)
Definition M (St A : Type) : Type := St -> Outcome A * St.

Definition ret {St A} (a : A) : M St A := fun s => (Returns a, s).

Definition raise {St A} (e : Exn) : M St A := fun s => (Raises e, s).

Definition bind {St A B} (m : M St A) (k : A -> M St B) : M St B :=
  fun s =>
    match m s with
    | (Returns a, s') => k a s'
    | (Raises e, s') => (Raises e, s')
    end.

(** [try m except e: h else: k], the shape of [add_email_if_not_exists]. *)
Definition try_except_else {St A B} (m : M St A) (e : Exn)
    (handler : M St B) (orelse : A -> M St B) : M St B :=
  fun s =>
    match m s with
    | (Returns a, s') => orelse a s'
    | (Raises e', s') =>
        if Exn_eqb e e' then handler s' else (Raises e', s')
    end.

Declare Scope monad_scope.
Delimit Scope monad_scope with monad.
Notation "x <- c1 ;; c2" := (bind c1 (fun x => c2))
  (at level 61, c1 at next level, right associativity) : monad_scope.
Notation "c1 ;; c2" := (bind c1 (fun _ => c2))
  (at level 61, right associativity) : monad_scope.
Local Open Scope monad_scope.

(** ** Data model *)

(** The account model the mixin is attached to.  Only its primary key and
    the attribute named by [primary_email_field_name = 'email'] matter. *)
Module User.
Record t : Type := mk { pk : nat; email : string }.

Definition set_email (e : string) (u : t) : t :=
  {| pk := pk u; email := e |}.
End User.

(** Timestamps ([datetime]) and durations ([timedelta]) are integers on a
    common scale; a duration may be zero or negative. *)
Definition datetime : Type := Z.
Definition timedelta : Type := Z.

Module EmailAddress.
(** [class EmailAddress(models.Model)]; [user] is the foreign key
    [user_id]. *)
Record t : Type := mk {
  pk : nat;
  user : nat;
  email : string;
  key : string;
  set_at : datetime;
  confirmed_at : option datetime
}.

Definition set_key (k : string) (a : t) : t :=
  {| pk := pk a; user := user a; email := email a; key := k;
     set_at := set_at a; confirmed_at := confirmed_at a |}.

Definition set_set_at (d : datetime) (a : t) : t :=
  {| pk := pk a; user := user a; email := email a; key := key a;
     set_at := d; confirmed_at := confirmed_at a |}.

Definition set_confirmed_at (c : option datetime) (a : t) : t :=
  {| pk := pk a; user := user a; email := email a; key := key a;
     set_at := set_at a; confirmed_at := c |}.

(** The columns that appear in some [update_fields] list. *)
Inductive Field : Type := f_key | f_set_at | f_confirmed_at.

Definition Field_eqb (f g : Field) : bool :=
  match f, g with
  | f_key, f_key | f_set_at, f_set_at | f_confirmed_at, f_confirmed_at => true
  | _, _ => false
  end.

Definition listed (f : Field) (fields : list Field) : bool :=
  existsb (Field_eqb f) fields.
End EmailAddress.

(** The three signals of [signals.py], with the arguments of [send]. *)
Inductive Signal : Type :=
| email_confirmed (sender : nat) (email : string)
| unconfirmed_email_created (sender : nat) (email : string)
| primary_email_changed (sender : nat) (old_email new_email : string).

(** What the program reads but never changes. *)
Record Env : Type := mkEnv {
  (* getattr(settings, 'SIMPLE_EMAIL_CONFIRMATION_PERIOD', None) *)
  SIMPLE_EMAIL_CONFIRMATION_PERIOD : option timedelta;
  (* the value of the i-th call of timezone.now() *)
  wall_clock : nat -> datetime;
  (* the i-th character the random generator draws *)
  random_char : nat -> ascii;
  (* the default of the length argument of get_random_string *)
  random_string_default_length : Z
}.

(** What the program changes. *)
Record World : Type := mkWorld {
  email_address_table : list EmailAddress.t;
  email_address_next_pk : nat;
  user_table : list User.t;
  sent : list Signal;
  clock_reads : nat;
  random_draws : nat
}.

Definition with_email_address_table (rows : list EmailAddress.t) (w : World)
    : World :=
  {| email_address_table := rows;
     email_address_next_pk := email_address_next_pk w;
     user_table := user_table w; sent := sent w;
     clock_reads := clock_reads w; random_draws := random_draws w |}.

(** ** Collaborators: clock, random strings, signals *)

Section Collaborators.
Variable env : Env.

(** [timezone.now()] *)
Definition timezone_now : M World datetime :=
  fun w =>
    (Returns (wall_clock env (clock_reads w)),
     {| email_address_table := email_address_table w;
        email_address_next_pk := email_address_next_pk w;
        user_table := user_table w; sent := sent w;
        clock_reads := S (clock_reads w);
        random_draws := random_draws w |}).

(** [get_random_string(length)]: one drawn character per element of
    [range(length)], hence none for a length below one. *)
Definition get_random_string (length : option Z) : M World string :=
  fun w =>
    let n := Z.to_nat (match length with
                       | Some l => l
                       | None => random_string_default_length env
                       end) in
    (Returns (string_of_list_ascii
                (map (random_char env) (seq (random_draws w) n))),
     {| email_address_table := email_address_table w;
        email_address_next_pk := email_address_next_pk w;
        user_table := user_table w; sent := sent w;
        clock_reads := clock_reads w;
        random_draws := random_draws w + n |}).
End Collaborators.

(** [signal.send(...)]: receivers are outside the module; the dispatch is
    recorded, oldest first. *)
Definition send (s : Signal) : M World unit :=
  fun w =>
    (Returns tt,
     {| email_address_table := email_address_table w;
        email_address_next_pk := email_address_next_pk w;
        user_table := user_table w; sent := sent w ++ [s];
        clock_reads := clock_reads w; random_draws := random_draws w |}).

(** ** The ORM calls the module makes *)

Module QuerySet.
Import EmailAddress.

(** [.get(...)] on the rows that matched the lookup. *)
Definition get (matching : list t) : M World t :=
  match matching with
  | [] => raise DoesNotExist
  | [a] => ret a
  | _ :: _ :: _ => raise MultipleObjectsReturned
  end.

Definition by_user (u : nat) (rows : list t) : list t :=
  filter (fun a => Nat.eqb (user a) u) rows.

Definition by_email (e : string) (rows : list t) : list t :=
  filter (fun a => String.eqb (email a) e) rows.

Definition by_key (k : string) (rows : list t) : list t :=
  filter (fun a => String.eqb (key a) k) rows.

(** [confirmed_at__isnull=isnull] *)
Definition by_confirmed_at_isnull (isnull : bool) (rows : list t) : list t :=
  filter (fun a => Bool.eqb (match confirmed_at a with
                             | None => true
                             | Some _ => false
                             end) isnull) rows.
End QuerySet.

Module ORM.
Import EmailAddress.

(** The row [row] after [UPDATE ... SET fields WHERE id = self.pk]. *)
Definition update_row (self : t) (fields : list Field) (row : t) : t :=
  if Nat.eqb (pk row) (pk self) then
    {| pk := pk row; user := user row; email := email row;
       key := if listed f_key fields then key self else key row;
       set_at := if listed f_set_at fields then set_at self else set_at row;
       confirmed_at := if listed f_confirmed_at fields
                       then confirmed_at self else confirmed_at row |}
  else row.

(** [self.save(update_fields=fields)]: fails when no row has the primary
    key, and when the new key would collide with another row's
    ([key] is [unique=True]). *)
Definition save (self : t) (update_fields : list Field) : M World unit :=
  fun w =>
    let rows := email_address_table w in
    if negb (existsb (fun r => Nat.eqb (pk r) (pk self)) rows) then
      (Raises DatabaseError, w)
    else if listed f_key update_fields
            && existsb (fun r => negb (Nat.eqb (pk r) (pk self))
                                 && String.eqb (key r) (key self)) rows then
      (Raises IntegrityError, w)
    else
      (Returns tt,
       with_email_address_table (map (update_row self update_fields) rows) w).

(** [self.delete()] *)
Definition delete (self : t) : M World unit :=
  fun w =>
    (Returns tt,
     with_email_address_table
       (filter (fun r => negb (Nat.eqb (pk r) (pk self)))
               (email_address_table w)) w).

(** The [INSERT] of [Manager.create]: rejected when [key] or the pair
    [(user, email)] is already there ([unique=True], [unique_together]). *)
Definition insert (u : nat) (e k : string) (s : datetime)
    (c : option datetime) : M World t :=
  fun w =>
    let rows := email_address_table w in
    if existsb (fun r => String.eqb (key r) k
                         || (Nat.eqb (user r) u && String.eqb (email r) e))
               rows then
      (Raises IntegrityError, w)
    else
      let a := {| pk := email_address_next_pk w; user := u; email := e;
                  key := k; set_at := s; confirmed_at := c |} in
      (Returns a,
       {| email_address_table := rows ++ [a];
          email_address_next_pk := S (email_address_next_pk w);
          user_table := user_table w; sent := sent w;
          clock_reads := clock_reads w; random_draws := random_draws w |}).

(** [user.save(update_fields=['email'])] on the account model. *)
Definition save_user_email (self : User.t) : M World unit :=
  fun w =>
    if negb (existsb (fun r => Nat.eqb (User.pk r) (User.pk self))
                     (user_table w)) then
      (Raises DatabaseError, w)
    else
      (Returns tt,
       {| email_address_table := email_address_table w;
          email_address_next_pk := email_address_next_pk w;
          user_table :=
            map (fun r => if Nat.eqb (User.pk r) (User.pk self)
                          then User.set_email (User.email self) r else r)
                (user_table w);
          sent := sent w;
          clock_reads := clock_reads w; random_draws := random_draws w |}).
End ORM.

(** ** Methods that assign to [self]

    They run on the pair of the object and the world, so that the
    assignments made before an exception are still visible to the caller
    who owns the object. *)
Definition on_world {Self A} (m : M World A) : M (Self * World) A :=
  fun s =>
    match m (snd s) with
    | (r, w') => (r, (fst s, w'))
    end.

Definition self_ {Self} : M (Self * World) Self :=
  fun s => (Returns (fst s), s).

Definition assign {Self} (f : Self -> Self) : M (Self * World) unit :=
  fun s => (Returns tt, (f (fst s), snd s)).

(** Call a method on a local object that is dropped afterwards. *)
Definition call_on {Self A} (o : Self) (m : M (Self * World) A) : M World A :=
  fun w =>
    match m (o, w) with
    | (r, s') => (r, snd s')
    end.

(** Python values of [x and y] where [x] is [None] or a [datetime]. *)
Inductive NoneOrBool : Type :=
| PyNone
| PyBool (b : bool).

Definition truthy (v : NoneOrBool) : bool :=
  match v with
  | PyNone => false
  | PyBool b => b
  end.

(** A read-only query against the current state. *)
Definition query {A} (f : World -> A) : M World A :=
  fun w => (Returns (f w), w).

(** ** [class EmailAddress]: properties *)

Module EmailAddressProperties.
Import EmailAddress.

Section Properties.
Variable env : Env.

Definition is_confirmed (self : t) : bool :=
  match confirmed_at self with
  | Some _ => true
  | None => false
  end.

Definition key_expires_at (self : t) : option datetime :=
  let period := SIMPLE_EMAIL_CONFIRMATION_PERIOD env in
  match period with
  | Some period => Some (set_at self + period)%Z
  | None => None
  end.

(** [self.key_expires_at and timezone.now() >= self.key_expires_at]: the
    clock is read only when there is an expiry date. *)
Definition is_key_expired (self : t) : M World NoneOrBool :=
  match key_expires_at self with
  | None => ret PyNone
  | Some expires =>
      now <- timezone_now env ;;
      ret (PyBool (Z.geb now expires))
  end.
End Properties.
End EmailAddressProperties.

(** ** [class EmailAddressManager] *)

Module EmailAddressManager.
Import EmailAddress EmailAddressProperties.

(** [EmailAddress.objects] has no [instance]; the related manager
    [user.email_address_set] has the user as its [instance]. *)
Record t : Type := mk { instance : option User.t }.

(** [self.all()] *)
Definition all (self : t) (w : World) : list EmailAddress.t :=
  match instance self with
  | Some u => QuerySet.by_user (User.pk u) (email_address_table w)
  | None => email_address_table w
  end.

Section Methods.
Variable env : Env.

Definition generate_key (key_length : option Z) : M World string :=
  match key_length with
  | None => get_random_string env None
  | Some key_length =>
      let length := Z.min key_length 40 in
      get_random_string env (Some length)
  end.

(** [self.create(user=, email=, key=, set_at=, confirmed_at=)]: a
    related manager stores its own [instance] as the owner; a missing
    [set_at] takes the field default [timezone.now()]. *)
Definition create (self : t) (user : User.t) (email key : string)
    (set_at confirmed_at : option datetime) : M World EmailAddress.t :=
  let owner := match instance self with
               | Some u => u
               | None => user
               end in
  s <- match set_at with
       | Some s => ret s
       | None => timezone_now env
       end ;;
  ORM.insert (User.pk owner) email key s confirmed_at.

(** [user or getattr(self, 'instance', None)] *)
Definition user_or_instance (self : t) (user : option User.t)
    : option User.t :=
  match user with
  | Some u => Some u
  | None => instance self
  end.

Definition create_confirmed (self : t) (email : string)
    (user : option User.t) : M World EmailAddress.t :=
  match user_or_instance self user with
  | None => raise ValueError
  | Some user =>
      now <- timezone_now env ;;
      key <- generate_key None ;;
      create self user email key (Some now) (Some now)
  end.

Definition create_unconfirmed (self : t) (email : string)
    (user : option User.t) (key_length : option Z)
    : M World EmailAddress.t :=
  match user_or_instance self user with
  | None => raise ValueError
  | Some user =>
      key <- generate_key key_length ;;
      address <- create self user email key None None ;;
      send (unconfirmed_email_created (User.pk user) email) ;;
      ret address
  end.

(** The rows [confirm] looks the key up in. *)
Definition confirm_queryset (self : t) (user : option User.t) (w : World)
    : list EmailAddress.t :=
  let queryset := all self w in
  match user with
  | Some u => QuerySet.by_user (User.pk u) queryset
  | None => queryset
  end.

Definition confirm (self : t) (key : string) (user : option User.t)
    (save : bool) : M World EmailAddress.t :=
  queryset <- query (confirm_queryset self user) ;;
  address <- QuerySet.get (QuerySet.by_key key queryset) ;;
  expired <- is_key_expired env address ;;
  if truthy expired then raise EmailConfirmationExpired
  else if negb (is_confirmed address) then
    now <- timezone_now env ;;
    let address := set_confirmed_at (Some now) address in
    if save then
      ORM.save address [f_confirmed_at] ;;
      send (email_confirmed (EmailAddress.user address)
                            (EmailAddress.email address)) ;;
      ret address
    else ret address
  else ret address.
End Methods.
End EmailAddressManager.

(** ** [class EmailAddress]: [reset_confirmation] *)

Section ResetConfirmation.
Variable env : Env.
Import EmailAddress.

(** [self._default_manager] is [EmailAddress.objects]. *)
Definition reset_confirmation : M (EmailAddress.t * World) string :=
  key <- on_world (EmailAddressManager.generate_key env None) ;;
  assign (set_key key) ;;
  now <- on_world (timezone_now env) ;;
  assign (set_set_at now) ;;
  assign (set_confirmed_at None) ;;
  self <- self_ ;;
  on_world (ORM.save self [f_key; f_set_at; f_confirmed_at]) ;;
  self <- self_ ;;
  ret (EmailAddress.key self).
End ResetConfirmation.

(** ** [class SimpleEmailConfirmationUserMixin] *)

Module SimpleEmailConfirmationUserMixin.

Definition get_primary_email (self : User.t) : string := User.email self.

(** The related manager [self.email_address_set]. *)
Definition email_address_set (self : User.t) : EmailAddressManager.t :=
  EmailAddressManager.mk (Some self).

(** [self.email_address_set.get(email=email)] *)
Definition get_address (self : User.t) (email : string)
    : M World EmailAddress.t :=
  rows <- query (EmailAddressManager.all (email_address_set self)) ;;
  QuerySet.get (QuerySet.by_email email rows).

Definition get_confirmed_emails (self : User.t) : M World (list string) :=
  address_qs <- query (fun w =>
    QuerySet.by_confirmed_at_isnull false
      (EmailAddressManager.all (email_address_set self) w)) ;;
  ret (map EmailAddress.email address_qs).

Definition get_unconfirmed_emails (self : User.t) : M World (list string) :=
  address_qs <- query (fun w =>
    QuerySet.by_confirmed_at_isnull true
      (EmailAddressManager.all (email_address_set self) w)) ;;
  ret (map EmailAddress.email address_qs).

Definition confirmed_emails := get_confirmed_emails.

Definition unconfirmed_emails := get_unconfirmed_emails.

(** [x in xs] on a list of strings *)
Definition py_in (x : string) (xs : list string) : bool :=
  existsb (String.eqb x) xs.

Definition set_primary_email (email : string) (require_confirmed : bool)
    : M (User.t * World) unit :=
  self <- self_ ;;
  let old_email := get_primary_email self in
  if String.eqb email old_email then ret tt
  else
    confirmed <- on_world (confirmed_emails self) ;;
    if negb (py_in email confirmed) && require_confirmed then
      raise EmailNotConfirmed
    else
      assign (User.set_email email) ;;
      self <- self_ ;;
      on_world (ORM.save_user_email self) ;;
      on_world (send (primary_email_changed (User.pk self) old_email email)).

Definition is_confirmed (self : User.t) : M World bool :=
  confirmed <- confirmed_emails self ;;
  ret (py_in (get_primary_email self) confirmed).

Definition confirmed_at (self : User.t) : M World (option datetime) :=
  address <- get_address self (get_primary_email self) ;;
  ret (EmailAddress.confirmed_at address).

(** [email or self.get_primary_email()]: [None] and the empty string are
    both falsy. *)
Definition get_confirmation_key (self : User.t) (email : option string)
    : M World string :=
  let email := match email with
               | Some e => if String.eqb e "" then get_primary_email self
                           else e
               | None => get_primary_email self
               end in
  address <- get_address self email ;;
  ret (EmailAddress.key address).

Definition confirmation_key (self : User.t) : M World string :=
  let email := get_primary_email self in
  get_confirmation_key self (Some email).

Section Methods.
Variable env : Env.

Definition confirm_email (self : User.t) (confirmation_key : string)
    (save : bool) : M World string :=
  address <- EmailAddressManager.confirm env (email_address_set self)
               confirmation_key None save ;;
  ret (EmailAddress.email address).

Definition add_confirmed_email (self : User.t) (email : string)
    : M World string :=
  address <- EmailAddressManager.create_confirmed env
               (email_address_set self) email None ;;
  ret (EmailAddress.key address).

Definition add_unconfirmed_email (self : User.t) (email : string)
    (key_length : option Z) : M World string :=
  address <- EmailAddressManager.create_unconfirmed env
               (email_address_set self) email None key_length ;;
  ret (EmailAddress.key address).

(** Returns [None] or the confirmation key. *)
Definition add_email_if_not_exists (self : User.t) (email : string)
    : M World (option string) :=
  try_except_else (get_address self email) DoesNotExist
    (key <- add_unconfirmed_email self email None ;;
     ret (Some key))
    (fun address =>
       if negb (EmailAddressProperties.is_confirmed address) then
         key <- call_on address (reset_confirmation env) ;;
         ret (Some key)
       else ret None).

Definition reset_email_confirmation (self : User.t) (email : string)
    : M World string :=
  address <- get_address self email ;;
  call_on address (reset_confirmation env).
End Methods.

Definition remove_email (self : User.t) (email : string) : M World unit :=
  if String.eqb email (get_primary_email self) then raise EmailIsPrimary
  else
    address <- get_address self email ;;
    ORM.delete address.
End SimpleEmailConfirmationUserMixin.

(** ** Store invariants

    The uniqueness constraints the database enforces on the table. *)
Definition unique_keys (w : World) : Prop :=
  NoDup (map EmailAddress.key (email_address_table w)).

Definition unique_together (w : World) : Prop :=
  NoDup (map (fun a => (EmailAddress.user a, EmailAddress.email a))
             (email_address_table w)).

(** The rows [confirm] can see, as one predicate on the table: those of the
    manager's [instance] and of the [user] argument, when given. *)
Definition confirm_scope (mgr : EmailAddressManager.t) (user : option User.t)
    (a : EmailAddress.t) : bool :=
  match EmailAddressManager.instance mgr with
  | Some u => Nat.eqb (EmailAddress.user a) (User.pk u)
  | None => true
  end
  && match user with
     | Some u => Nat.eqb (EmailAddress.user a) (User.pk u)
     | None => true
     end.

(** [w'] differs from [w] at most in how far the clock and the random
    generator have been consumed: tables and signals are the same. *)
Definition same_store (w w' : World) : Prop :=
  email_address_table w' = email_address_table w
  /\ email_address_next_pk w' = email_address_next_pk w
  /\ user_table w' = user_table w
  /\ sent w' = sent w.

(** The key of [a] has not expired at time [now]: either no confirmation
    period is configured or [now] is before [set_at + period]. *)
Definition unexpired_at (env : Env) (a : EmailAddress.t) (now : datetime)
    : Prop :=
  forall period,
    SIMPLE_EMAIL_CONFIRMATION_PERIOD env = Some period ->
    (now < EmailAddress.set_at a + period)%Z.

(** How many [email_confirmed] signals a log holds. *)
Definition count_email_confirmed (log : list Signal) : nat :=
  List.length (filter (fun s => match s with
                                | email_confirmed _ _ => true
                                | _ => false
                                end) log).

(** ** Example data used to exercise the statements *)

Module Sample.
Definition alice : User.t := User.mk 1 "a@x.com".

Definition bob : User.t := User.mk 2 "b@x.com".

(** alice's primary address, unconfirmed, key set at time 100 *)
Definition row1 : EmailAddress.t :=
  EmailAddress.mk 1 1 "a@x.com" "k1" 100%Z None.

(** a second address of alice, confirmed at time 60 *)
Definition row2 : EmailAddress.t :=
  EmailAddress.mk 2 1 "c@x.com" "k2" 50%Z (Some 60%Z).

Definition world : World :=
  mkWorld [row1; row2] 3 [alice; bob] [] 0 0.

(** The clock shows 200, 201, 202, ...; the generator draws 'a', 'b',
    'c', ... and has default length 12; the confirmation period is the
    argument. *)
Definition env (period : option timedelta) : Env :=
  mkEnv period (fun i => 200 + Z.of_nat i)%Z
        (fun i => ascii_of_nat (97 + i)) 12%Z.
End Sample.

(** ** The rest of the module: [is_primary] and the [post_save] hook *)

(** [self.user]: the account row the foreign key points to. *)
Definition get_user (pk : nat) : M World User.t :=
  rows <- query (fun w => filter (fun u => Nat.eqb (User.pk u) pk)
                                 (user_table w)) ;;
  match rows with
  | [] => raise DoesNotExist
  | [u] => ret u
  | _ :: _ :: _ => raise MultipleObjectsReturned
  end.

(** [EmailAddress.is_primary]: [bool(self.user.email == self.email)] *)
Definition is_primary (self : EmailAddress.t) : M World bool :=
  user <- get_user (EmailAddress.user self) ;;
  ret (String.eqb (User.email user) (EmailAddress.email self)).

(** A [post_save] dispatch as [auto_add] sees it: either the sender is the
    user model, and then [instance] is a user, or it is another model. *)
Inductive PostSave : Type :=
| post_save_user (instance : User.t) (created : bool)
| post_save_other (created : bool).

(** [auto_add(sender, **kwargs)] *)
Definition auto_add (env : Env) (signal : PostSave) : M World unit :=
  match signal with
  | post_save_user user true =>
      let email := SimpleEmailConfirmationUserMixin.get_primary_email user in
      SimpleEmailConfirmationUserMixin.add_unconfirmed_email env user email
        None ;;
      ret tt
  | post_save_user _ false => ret tt
  | post_save_other _ => ret tt
  end.

(** What a [post_save] dispatch runs of this module: [auto_add] is connected
    when [getattr(settings, 'SIMPLE_EMAIL_CONFIRMATION_AUTO_ADD', True)] is
    true. *)
Definition on_post_save (env : Env)
    (SIMPLE_EMAIL_CONFIRMATION_AUTO_ADD : option bool) (signal : PostSave)
    : M World unit :=
  if match SIMPLE_EMAIL_CONFIRMATION_AUTO_ADD with
     | Some flag => flag
     | None => true
     end
  then auto_add env signal
  else ret tt.

(** ** The constraints of the address table, together

    Primary keys are unique and below the next one to be handed out, keys
    are unique, and so are the pairs [(user, email)]. *)
Definition store_ok (w : World) : Prop :=
  NoDup (map EmailAddress.pk (email_address_table w))
  /\ (forall a, In a (email_address_table w) ->
                EmailAddress.pk a < email_address_next_pk w)
  /\ unique_keys w
  /\ unique_together w.

(** An action keeps the constraints, whatever it returns or raises. *)
Definition preserves {A} (m : M World A) : Prop :=
  forall w, store_ok w -> store_ok (snd (m w)).

(** The user owns a row for [email]. *)
Definition has_address (self : User.t) (email : string) (w : World) : Prop :=
  exists a, In a (email_address_table w)
            /\ EmailAddress.user a = User.pk self
            /\ EmailAddress.email a = email.

(** More example data: a second user with a row of her own. *)
Module Scenario.
Definition carol : User.t := User.mk 3 "carol@x.com".

(** carol's only address, unconfirmed *)
Definition row3 : EmailAddress.t :=
  EmailAddress.mk 3 3 "carol@x.com" "k3" 150%Z None.

Definition world : World :=
  mkWorld [Sample.row1; Sample.row2; row3] 4
          [Sample.alice; Sample.bob; carol] [] 0 0.
End Scenario.

(** Example data in which the random generator repeats itself: it draws
    'k' every time and its default length is one, so every generated key is
    "k"; the clock shows 0, 1, 2, ... *)
Module Collision.
Definition env : Env :=
  mkEnv None (fun i => Z.of_nat i) (fun _ => "k"%char) 1%Z.

(** alice's primary address, unconfirmed, whose key is "k" already *)
Definition row_k : EmailAddress.t :=
  EmailAddress.mk 1 1 "a@x.com" "k" 0%Z None.

(** a second unconfirmed address of alice, with another key *)
Definition row_j : EmailAddress.t :=
  EmailAddress.mk 2 1 "c@x.com" "j" 0%Z None.

Definition world : World :=
  mkWorld [row_k; row_j] 3 [Sample.alice] [] 0 0.
End Collision.

(** ** Auxiliary facts about lists, strings and lookups *)

Lemma length_string_of_list_ascii (l : list ascii) :
  String.length (string_of_list_ascii l) = List.length l.
Proof.
  induction l as [|c l IH]; simpl; [reflexivity | now rewrite IH].
Qed.

Lemma filter_none {A} (p : A -> bool) (l : list A) :
  (forall x, In x l -> p x = false) -> filter p l = [].
Proof.
  induction l as [|x l IH]; simpl; intros H; [reflexivity|].
  rewrite (H x (or_introl eq_refl)). apply IH. intros y Hy. apply H. now right.
Qed.

Lemma filter_singleton {A} (p : A -> bool) (l : list A) (a : A) :
  NoDup l -> In a l -> p a = true ->
  (forall b, In b l -> p b = true -> b = a) ->
  filter p l = [a].
Proof.
  induction l as [|x l IH]; simpl; intros Hnd Hin Hpa Huniq; [contradiction|].
  inversion Hnd as [|? ? Hx Hnd']; subst.
  destruct Hin as [->|Hin].
  - rewrite Hpa. f_equal. apply filter_none. intros y Hy.
    destruct (p y) eqn:E; [|reflexivity].
    assert (y = a) by (apply Huniq; auto). subst. contradiction.
  - destruct (p x) eqn:E.
    + assert (x = a) by (apply Huniq; auto). subst. contradiction.
    + apply IH; auto.
Qed.

Lemma NoDup_map_injective_on {A B} (f : A -> B) (l : list A) (x y : A) :
  NoDup (map f l) -> In x l -> In y l -> f x = f y -> x = y.
Proof.
  induction l as [|z l IH]; simpl; intros Hnd Hx Hy Hf; [contradiction|].
  inversion Hnd as [|? ? Hz Hnd']; subst.
  destruct Hx as [->|Hx], Hy as [->|Hy]; auto.
  - exfalso. apply Hz. rewrite Hf. now apply in_map.
  - exfalso. apply Hz. rewrite <- Hf. now apply in_map.
Qed.

(** A column that is unique in the table is unique in every queryset
    filtered from it. *)
Lemma NoDup_map_filter {Row Col} (column : Row -> Col) (keep : Row -> bool)
    (rows : list Row) (Hunique : NoDup (map column rows)) :
  NoDup (map column (filter keep rows)).
Proof.
  induction rows as [|r rows IH]; simpl; [constructor|].
  inversion Hunique as [|? ? Hr Hrest]; subst.
  destruct (keep r); simpl; auto.
  constructor; auto. intros Hin. apply Hr.
  apply in_map_iff in Hin. destruct Hin as [y [Hy Hin]].
  apply filter_In in Hin. apply in_map_iff. exists y. tauto.
Qed.

Lemma NoDup_of_map {A B} (f : A -> B) (l : list A) :
  NoDup (map f l) -> NoDup l.
Proof.
  induction l as [|x l IH]; simpl; intros Hnd; [constructor|].
  inversion Hnd as [|? ? Hx Hnd']; subst.
  constructor; auto. intros Hin. apply Hx. now apply in_map.
Qed.

Lemma existsb_pk_In (rows : list EmailAddress.t) (a : EmailAddress.t) :
  In a rows ->
  existsb (fun r => Nat.eqb (EmailAddress.pk r) (EmailAddress.pk a)) rows = true.
Proof.
  intros Hin. apply existsb_exists. exists a. split; [assumption|].
  apply Nat.eqb_refl.
Qed.

(** A key that is unique in the table selects its row in every queryset
    that contains the row. *)
Lemma by_key_selects (p : EmailAddress.t -> bool) (rows : list EmailAddress.t)
    (a : EmailAddress.t) :
  NoDup (map EmailAddress.key rows) ->
  In a (filter p rows) ->
  QuerySet.by_key (EmailAddress.key a) (filter p rows) = [a].
Proof.
  intros Hnd Hin. unfold QuerySet.by_key.
  pose proof (NoDup_map_filter EmailAddress.key p rows Hnd) as Hnd'.
  apply filter_singleton; auto.
  - now apply NoDup_of_map in Hnd'.
  - apply String.eqb_refl.
  - intros b Hb Hk. apply String.eqb_eq in Hk.
    eapply NoDup_map_injective_on; eauto.
Qed.

Lemma filter_true {A} (l : list A) : filter (fun _ => true) l = l.
Proof.
  induction l as [|x l IH]; simpl; [reflexivity | now rewrite IH].
Qed.

Lemma filter_filter_and {A} (p q : A -> bool) (l : list A) :
  filter p (filter q l) = filter (fun x => q x && p x) l.
Proof.
  induction l as [|x l IH]; simpl; [reflexivity|].
  destruct (q x); simpl; [destruct (p x)|]; now rewrite IH.
Qed.

Lemma confirm_queryset_filter mgr user w :
  EmailAddressManager.confirm_queryset mgr user w
  = filter (confirm_scope mgr user) (email_address_table w).
Proof.
  unfold EmailAddressManager.confirm_queryset, EmailAddressManager.all,
    confirm_scope, QuerySet.by_user.
  destruct (EmailAddressManager.instance mgr), user; simpl.
  - apply filter_filter_and.
  - apply filter_ext. intros a. now rewrite andb_true_r.
  - reflexivity.
  - symmetry. apply filter_true.
Qed.

(** ** Key expiry *)

(** C8: [key_expires_at] is [set_at + period] when a confirmation period is
    configured and [None] otherwise; [is_key_expired] is truthy exactly when
    there is an expiry date and the clock reading [now] taken by the check
    satisfies [now >= key_expires_at]; with no period configured (the
    default) no key is ever expired. *)
Theorem key_expiry_policy (env : Env) (a : EmailAddress.t) (w : World) :
  let now := wall_clock env (clock_reads w) in
  EmailAddressProperties.key_expires_at env a
  = match SIMPLE_EMAIL_CONFIRMATION_PERIOD env with
    | Some period => Some (EmailAddress.set_at a + period)%Z
    | None => None
    end
  /\ (exists v w',
        EmailAddressProperties.is_key_expired env a w = (Returns v, w')
        /\ same_store w w'
        /\ (truthy v = true <->
            exists expires,
              EmailAddressProperties.key_expires_at env a = Some expires
              /\ (now >= expires)%Z))
  /\ (SIMPLE_EMAIL_CONFIRMATION_PERIOD env = None ->
      forall w0, exists v,
        EmailAddressProperties.is_key_expired env a w0 = (Returns v, w0)
        /\ truthy v = false).
Proof.
  unfold EmailAddressProperties.is_key_expired,
    EmailAddressProperties.key_expires_at, same_store.
  destruct (SIMPLE_EMAIL_CONFIRMATION_PERIOD env) as [period|]; simpl.
  - split; [reflexivity|]. split; [|discriminate].
    eexists. eexists. split; [reflexivity|]. simpl.
    split; [tauto|]. rewrite Z.geb_le. split.
    + intros H. eexists. split; [reflexivity | lia].
    + intros [expires [E H]]. injection E as <-. lia.
  - split; [reflexivity|]. split.
    + exists PyNone, w. split; [reflexivity|]. split; [tauto|].
      split; [discriminate|]. intros [expires [E _]]. discriminate.
    + intros _ w0. exists PyNone. split; reflexivity.
Qed.

Lemma key_expiry_policy_witness :
  exists v,
    EmailAddressProperties.is_key_expired (Sample.env None) Sample.row1
      Sample.world = (Returns v, Sample.world)
    /\ truthy v = false.
Proof.
  apply (proj2 (proj2 (key_expiry_policy (Sample.env None) Sample.row1
                         Sample.world)) eq_refl Sample.world).
Defined.

(** ** Key generation *)

(** C7: for a requested length [key_length] (a length, so not negative)
    [generate_key] returns a token of [min(key_length, 40)] characters, and
    for any integer argument the token has at most 40 characters; with no
    length requested the token has the generator's default length; in all
    cases the tables and the signals sent are untouched. *)
Theorem generate_key_clamps_length (env : Env) (w : World) :
  (forall key_length : Z,
      exists token w',
        EmailAddressManager.generate_key env (Some key_length) w
        = (Returns token, w')
        /\ (0 <= key_length ->
            Z.of_nat (String.length token) = Z.min key_length 40)%Z
        /\ String.length token <= 40
        /\ same_store w w')
  /\ (exists token w',
        EmailAddressManager.generate_key env None w = (Returns token, w')
        /\ EmailAddressManager.generate_key env None w
           = get_random_string env None w
        /\ String.length token
           = Z.to_nat (random_string_default_length env)
        /\ same_store w w').
Proof.
  unfold EmailAddressManager.generate_key, get_random_string, same_store.
  split.
  - intros key_length. eexists. eexists. split; [reflexivity|].
    simpl. rewrite length_string_of_list_ascii, length_map, length_seq.
    split; [lia|]. split; [lia | tauto].
  - eexists. eexists. split; [reflexivity|]. split; [reflexivity|].
    simpl. rewrite length_string_of_list_ascii, length_map, length_seq.
    tauto.
Qed.

Lemma generate_key_clamps_length_witness :
  exists token w',
    EmailAddressManager.generate_key (Sample.env None) (Some 50%Z)
      Sample.world = (Returns token, w')
    /\ Z.of_nat (String.length token) = Z.min 50 40
    /\ same_store Sample.world w'.
Proof.
  destruct (proj1 (generate_key_clamps_length (Sample.env None) Sample.world)
              50%Z) as [token [w' [H1 [H2 [_ H3]]]]].
  exists token, w'. split; [exact H1|]. split; [apply H2; lia | exact H3].
Defined.

(** ** The primary address *)

(** C9: [set_primary_email] compares with the current primary first, so
    setting the primary to the value it already has returns normally and
    changes nothing (no save, no signal), whatever [require_confirmed] is
    and whether or not the address is confirmed. *)
Theorem set_primary_email_same_is_noop (self : User.t)
    (require_confirmed : bool) (w : World) :
  SimpleEmailConfirmationUserMixin.set_primary_email
    (SimpleEmailConfirmationUserMixin.get_primary_email self)
    require_confirmed (self, w)
  = (Returns tt, (self, w)).
Proof.
  unfold SimpleEmailConfirmationUserMixin.set_primary_email, bind, self_, ret.
  simpl. now rewrite String.eqb_refl.
Qed.

(** C10: when no row of the table belongs to the user's primary address,
    the property [is_confirmed] returns [False] while the property
    [confirmed_at] raises [DoesNotExist]. *)
Theorem missing_primary_record_accessors_disagree (self : User.t) (w : World) :
  (forall a, In a (email_address_table w) ->
             EmailAddress.user a = User.pk self ->
             EmailAddress.email a <> User.email self) ->
  SimpleEmailConfirmationUserMixin.is_confirmed self w = (Returns false, w)
  /\ SimpleEmailConfirmationUserMixin.confirmed_at self w
     = (Raises DoesNotExist, w).
Proof.
  intros Hnone.
  unfold SimpleEmailConfirmationUserMixin.is_confirmed,
    SimpleEmailConfirmationUserMixin.confirmed_at,
    SimpleEmailConfirmationUserMixin.confirmed_emails,
    SimpleEmailConfirmationUserMixin.get_confirmed_emails,
    SimpleEmailConfirmationUserMixin.get_address,
    SimpleEmailConfirmationUserMixin.get_primary_email,
    SimpleEmailConfirmationUserMixin.py_in,
    EmailAddressManager.all, bind, query, ret. simpl.
  split.
  - f_equal. f_equal.
    destruct (existsb _ _) eqn:E; [|reflexivity]. exfalso.
    apply existsb_exists in E. destruct E as [e [Hin He]].
    apply String.eqb_eq in He. subst e.
    apply in_map_iff in Hin. destruct Hin as [a [Ha Hin]].
    unfold QuerySet.by_confirmed_at_isnull, QuerySet.by_user in Hin.
    apply filter_In in Hin. destruct Hin as [Hin _].
    apply filter_In in Hin. destruct Hin as [Hin Hu].
    apply Nat.eqb_eq in Hu. exact (Hnone a Hin Hu Ha).
  - unfold QuerySet.by_email.
    rewrite (filter_none _ (QuerySet.by_user _ _)); [reflexivity|].
    intros a Hin. unfold QuerySet.by_user in Hin.
    apply filter_In in Hin. destruct Hin as [Hin Hu].
    apply Nat.eqb_eq in Hu. apply String.eqb_neq. exact (Hnone a Hin Hu).
Qed.

Lemma missing_primary_record_accessors_disagree_witness :
  SimpleEmailConfirmationUserMixin.is_confirmed Sample.bob Sample.world
  = (Returns false, Sample.world)
  /\ SimpleEmailConfirmationUserMixin.confirmed_at Sample.bob Sample.world
     = (Raises DoesNotExist, Sample.world).
Proof.
  apply (missing_primary_record_accessors_disagree Sample.bob Sample.world).
  simpl. intros a [<-|[<-|[]]]; simpl; discriminate.
Defined.

(** ** Confirmation *)

Lemma update_row_self (a : EmailAddress.t) (c : option datetime) :
  ORM.update_row (EmailAddress.set_confirmed_at c a)
    [EmailAddress.f_confirmed_at] a
  = EmailAddress.set_confirmed_at c a.
Proof.
  unfold ORM.update_row. simpl. now rewrite Nat.eqb_refl.
Qed.

Lemma update_row_confirmed_at_key (self r : EmailAddress.t) :
  EmailAddress.key (ORM.update_row self [EmailAddress.f_confirmed_at] r)
  = EmailAddress.key r.
Proof.
  unfold ORM.update_row. now destruct (Nat.eqb _ _).
Qed.

Lemma confirm_scope_in mgr user w a :
  In a (EmailAddressManager.confirm_queryset mgr user w) ->
  In a (email_address_table w) /\ confirm_scope mgr user a = true.
Proof.
  rewrite confirm_queryset_filter. apply filter_In.
Qed.

(** [confirm] finds the row that carries the key. *)
Lemma confirm_lookup mgr user w a :
  unique_keys w ->
  In a (EmailAddressManager.confirm_queryset mgr user w) ->
  QuerySet.by_key (EmailAddress.key a)
    (EmailAddressManager.confirm_queryset mgr user w) = [a].
Proof.
  intros Hk Hin. rewrite confirm_queryset_filter in *.
  now apply by_key_selects.
Qed.

(** C2: when a confirmation period is configured and the clock reading [now]
    taken by the check satisfies [now >= set_at + period], [confirm] raises
    [EmailConfirmationExpired] and leaves the tables (so every field of the
    row, [confirmed_at] included) and the signals as they were, whether or
    not the row was confirmed already. *)
Theorem confirm_expired_raises (env : Env) (mgr : EmailAddressManager.t)
    (user : option User.t) (save : bool) (w : World) (a : EmailAddress.t)
    (period : timedelta) :
  unique_keys w ->
  In a (EmailAddressManager.confirm_queryset mgr user w) ->
  SIMPLE_EMAIL_CONFIRMATION_PERIOD env = Some period ->
  (wall_clock env (clock_reads w) >= EmailAddress.set_at a + period)%Z ->
  exists w',
    EmailAddressManager.confirm env mgr (EmailAddress.key a) user save w
    = (Raises EmailConfirmationExpired, w')
    /\ same_store w w'
    /\ In a (email_address_table w').
Proof.
  intros Hk Hin Hp Hnow.
  unfold EmailAddressManager.confirm, bind, query.
  rewrite (confirm_lookup mgr user w a Hk Hin). simpl.
  unfold EmailAddressProperties.is_key_expired,
    EmailAddressProperties.key_expires_at, bind, timezone_now.
  rewrite Hp. simpl.
  assert (E : Z.geb (wall_clock env (clock_reads w))
                    (EmailAddress.set_at a + period) = true)
    by (apply Z.geb_le; lia).
  rewrite E. simpl. eexists. split; [reflexivity|].
  unfold same_store. simpl. split; [tauto|].
  now apply confirm_scope_in in Hin.
Qed.

Lemma confirm_expired_raises_witness :
  exists w',
    EmailAddressManager.confirm (Sample.env (Some 50%Z))
      (EmailAddressManager.mk None) "k2" None true Sample.world
    = (Raises EmailConfirmationExpired, w')
    /\ same_store Sample.world w'
    /\ In Sample.row2 (email_address_table w').
Proof.
  apply (confirm_expired_raises (Sample.env (Some 50%Z))
           (EmailAddressManager.mk None) None true Sample.world Sample.row2
           50%Z).
  - unfold unique_keys. simpl.
    repeat constructor; simpl; intuition discriminate.
  - simpl. tauto.
  - reflexivity.
  - simpl. lia.
Defined.

Lemma count_email_confirmed_snoc (log : list Signal) (u : nat) (e : string) :
  count_email_confirmed (log ++ [email_confirmed u e])
  = S (count_email_confirmed log).
Proof.
  unfold count_email_confirmed. rewrite filter_app, length_app. simpl. lia.
Qed.

(** An unexpired key passes the expiry check of [confirm]; the check reads
    the clock only when a period is configured. *)
Lemma is_key_expired_unexpired env a w :
  unexpired_at env a (wall_clock env (clock_reads w)) ->
  exists v w',
    EmailAddressProperties.is_key_expired env a w = (Returns v, w')
    /\ truthy v = false
    /\ same_store w w'
    /\ clock_reads w <= clock_reads w'
    /\ random_draws w' = random_draws w.
Proof.
  intros Hun.
  unfold EmailAddressProperties.is_key_expired,
    EmailAddressProperties.key_expires_at, bind, timezone_now, ret.
  destruct (SIMPLE_EMAIL_CONFIRMATION_PERIOD env) as [period|] eqn:Hp.
  - specialize (Hun period Hp).
    eexists. eexists. split; [reflexivity|]. unfold same_store. simpl.
    split; [|repeat split; lia].
    destruct (Z.geb _ _) eqn:E; [|reflexivity].
    apply Z.geb_le in E. lia.
  - exists PyNone, w. unfold same_store. repeat split; lia.
Qed.

(** C1: on a stored, unconfirmed row whose key has not expired,
    [confirm(key)] returns the row with [confirmed_at] set to the clock
    reading [now] it took, writes that to the table and sends exactly one
    [email_confirmed]; in any later state with the same table in which the
    key is still unexpired, [confirm(key)] returns the same row, changes
    neither tables nor signals, and so two confirmations in a row send
    [email_confirmed] once in total. *)
Theorem confirm_idempotent (env : Env) (mgr : EmailAddressManager.t)
    (user : option User.t) (w : World) (a : EmailAddress.t) :
  unique_keys w ->
  In a (EmailAddressManager.confirm_queryset mgr user w) ->
  EmailAddressProperties.is_confirmed a = false ->
  unexpired_at env a (wall_clock env (clock_reads w)) ->
  exists now w1,
    let a' := EmailAddress.set_confirmed_at (Some now) a in
    EmailAddressManager.confirm env mgr (EmailAddress.key a) user true w
    = (Returns a', w1)
    /\ clock_reads w < clock_reads w1
    /\ now = wall_clock env (pred (clock_reads w1))
    /\ email_address_table w1
       = map (ORM.update_row a' [EmailAddress.f_confirmed_at])
             (email_address_table w)
    /\ In a' (email_address_table w1)
    /\ sent w1
       = sent w ++ [email_confirmed (EmailAddress.user a)
                                    (EmailAddress.email a)]
    /\ (forall save w2,
          email_address_table w2 = email_address_table w1 ->
          unexpired_at env a (wall_clock env (clock_reads w2)) ->
          exists w3,
            EmailAddressManager.confirm env mgr (EmailAddress.key a) user
              save w2 = (Returns a', w3)
            /\ same_store w2 w3)
    /\ (unexpired_at env a (wall_clock env (clock_reads w1)) ->
        count_email_confirmed
          (sent (snd (EmailAddressManager.confirm env mgr (EmailAddress.key a)
                        user true w1)))
        = S (count_email_confirmed (sent w))).
Proof.
  intros Hk Hin Hunconf Hun.
  destruct (confirm_scope_in mgr user w a Hin) as [Hina Hscope].
  destruct (is_key_expired_unexpired env a w Hun)
    as [v [w0 [Hexp [Hv [[Ht [Hn [Hu Hs]]] [Hclk Hrnd]]]]]].
  set (now := wall_clock env (clock_reads w0)).
  set (a' := EmailAddress.set_confirmed_at (Some now) a).
  pose (w1 := {| email_address_table :=
                   map (ORM.update_row a' [EmailAddress.f_confirmed_at])
                       (email_address_table w);
                 email_address_next_pk := email_address_next_pk w;
                 user_table := user_table w;
                 sent := sent w ++ [email_confirmed (EmailAddress.user a)
                                                    (EmailAddress.email a)];
                 clock_reads := S (clock_reads w0);
                 random_draws := random_draws w |}).
  assert (Hfirst :
    EmailAddressManager.confirm env mgr (EmailAddress.key a) user true w
    = (Returns a', w1)).
  { unfold EmailAddressManager.confirm, bind, query.
    rewrite (confirm_lookup mgr user w a Hk Hin). simpl.
    rewrite Hexp, Hv, Hunconf. simpl.
    unfold ORM.save. fold now. fold a'. rewrite Ht. simpl.
    change (EmailAddress.pk a') with (EmailAddress.pk a).
    rewrite (existsb_pk_In _ a Hina). simpl.
    unfold send, ret, with_email_address_table, w1. simpl.
    rewrite Hn, Hu, Hs, Hrnd. reflexivity. }
  assert (Hin' : In a' (email_address_table w1)).
  { simpl. apply in_map_iff. exists a. split; [|assumption].
    apply update_row_self. }
  assert (Hsecond : forall save w2,
    email_address_table w2 = email_address_table w1 ->
    unexpired_at env a (wall_clock env (clock_reads w2)) ->
    exists w3,
      EmailAddressManager.confirm env mgr (EmailAddress.key a) user save w2
      = (Returns a', w3) /\ same_store w2 w3).
  { intros save w2 Htab Hun2.
    assert (Hk2 : unique_keys w2).
    { unfold unique_keys. rewrite Htab. simpl. rewrite map_map.
      erewrite map_ext; [exact Hk|].
      intros r. apply update_row_confirmed_at_key. }
    assert (Hin2 : In a' (EmailAddressManager.confirm_queryset mgr user w2)).
    { rewrite confirm_queryset_filter, Htab. apply filter_In.
      split; [assumption|]. exact Hscope. }
    assert (Hun2' : unexpired_at env a' (wall_clock env (clock_reads w2)))
      by exact Hun2.
    destruct (is_key_expired_unexpired env a' w2 Hun2')
      as [v2 [w3 [Hexp2 [Hv2 [Hsame2 _]]]]].
    exists w3. split; [|assumption].
    unfold EmailAddressManager.confirm, bind, query.
    change (EmailAddress.key a) with (EmailAddress.key a').
    rewrite (confirm_lookup mgr user w2 a' Hk2 Hin2). simpl.
    rewrite Hexp2, Hv2. reflexivity. }
  exists now, w1. cbv zeta. fold a'.
  split; [exact Hfirst|].
  split; [simpl; lia|].
  split; [reflexivity|].
  split; [reflexivity|].
  split; [exact Hin'|].
  split; [reflexivity|].
  split; [exact Hsecond|].
  intros Hun1.
  destruct (Hsecond true w1 eq_refl Hun1) as [w3 [E [_ [_ [_ Hsent]]]]].
  rewrite E. simpl. rewrite Hsent. simpl.
  apply count_email_confirmed_snoc.
Qed.

Lemma confirm_idempotent_witness :
  exists now w1,
    EmailAddressManager.confirm (Sample.env (Some 500%Z))
      (EmailAddressManager.mk None) "k1" None true Sample.world
    = (Returns (EmailAddress.set_confirmed_at (Some now) Sample.row1), w1)
    /\ sent w1 = [email_confirmed 1 "a@x.com"]
    /\ count_email_confirmed
         (sent (snd (EmailAddressManager.confirm (Sample.env (Some 500%Z))
                       (EmailAddressManager.mk None) "k1" None true w1)))
       = 1.
Proof.
  destruct (confirm_idempotent (Sample.env (Some 500%Z))
              (EmailAddressManager.mk None) None Sample.world Sample.row1)
    as [now [w1 [H1 [Hclk [Hnow [_ [_ [H2 [_ H3]]]]]]]]].
  - unfold unique_keys. simpl.
    repeat constructor; simpl; intuition discriminate.
  - simpl. tauto.
  - reflexivity.
  - intros period E. injection E as <-. simpl. lia.
  - exists now, w1. split; [exact H1|]. split; [exact H2|].
    apply H3. intros period E. injection E as <-.
    assert (Hw1 : clock_reads w1 = 2).
    { pose proof (f_equal (fun r => clock_reads (snd r)) H1) as Hc.
      simpl in Hc. congruence. }
    rewrite Hw1. simpl. lia.
Defined.

(** ** Looking up an address of a user *)

Lemma get_address_found (self : User.t) (e : string) (w : World)
    (a : EmailAddress.t) :
  unique_together w ->
  In a (email_address_table w) ->
  EmailAddress.user a = User.pk self ->
  EmailAddress.email a = e ->
  SimpleEmailConfirmationUserMixin.get_address self e w = (Returns a, w).
Proof.
  intros Hut Hin Hu He.
  unfold SimpleEmailConfirmationUserMixin.get_address, bind, query,
    EmailAddressManager.all, QuerySet.by_email, QuerySet.by_user. simpl.
  rewrite filter_filter_and.
  rewrite (filter_singleton _ _ a); [reflexivity| | assumption | |].
  - exact (NoDup_of_map _ _ Hut).
  - rewrite Hu, He, Nat.eqb_refl, String.eqb_refl. reflexivity.
  - intros b Hb Hpb. apply andb_true_iff in Hpb. destruct Hpb as [Hbu Hbe].
    apply Nat.eqb_eq in Hbu. apply String.eqb_eq in Hbe.
    eapply NoDup_map_injective_on; eauto. simpl. congruence.
Qed.

Lemma get_address_missing (self : User.t) (e : string) (w : World) :
  (forall a, In a (email_address_table w) ->
             EmailAddress.user a = User.pk self ->
             EmailAddress.email a <> e) ->
  SimpleEmailConfirmationUserMixin.get_address self e w
  = (Raises DoesNotExist, w).
Proof.
  intros Hnone.
  unfold SimpleEmailConfirmationUserMixin.get_address, bind, query,
    EmailAddressManager.all, QuerySet.by_email, QuerySet.by_user. simpl.
  rewrite filter_filter_and, filter_none; [reflexivity|].
  intros a Hin. destruct (Nat.eqb _ _) eqn:Eu; [|reflexivity]. simpl.
  apply Nat.eqb_eq in Eu. apply String.eqb_neq. now apply Hnone.
Qed.

(** [email in self.confirmed_emails] says that the user has a confirmed row
    for [email]. *)
Lemma py_in_confirmed_emails (self : User.t) (e : string) (w : World) :
  SimpleEmailConfirmationUserMixin.py_in e
    (map EmailAddress.email
       (QuerySet.by_confirmed_at_isnull false
          (EmailAddressManager.all
             (SimpleEmailConfirmationUserMixin.email_address_set self) w)))
  = true
  <-> exists a, In a (email_address_table w)
                /\ EmailAddress.user a = User.pk self
                /\ EmailAddress.email a = e
                /\ EmailAddressProperties.is_confirmed a = true.
Proof.
  unfold SimpleEmailConfirmationUserMixin.py_in, EmailAddressManager.all,
    QuerySet.by_confirmed_at_isnull, QuerySet.by_user,
    EmailAddressProperties.is_confirmed. simpl.
  rewrite existsb_exists. split.
  - intros [x [Hin Hx]]. apply String.eqb_eq in Hx. subst x.
    apply in_map_iff in Hin. destruct Hin as [a [Ha Hin]].
    apply filter_In in Hin. destruct Hin as [Hin Hc].
    apply filter_In in Hin. destruct Hin as [Hin Hu].
    apply Nat.eqb_eq in Hu. exists a. repeat split; auto.
    destruct (EmailAddress.confirmed_at a); [reflexivity | discriminate].
  - intros [a [Hin [Hu [He Hc]]]]. exists e. split; [|apply String.eqb_refl].
    apply in_map_iff. exists a. split; [assumption|].
    apply filter_In. split.
    + apply filter_In. split; [assumption|]. now apply Nat.eqb_eq.
    + destruct (EmailAddress.confirmed_at a); [reflexivity | discriminate].
Qed.

(** ** Changing the primary address *)

(** C5: for an [email] other than the current primary, with
    [require_confirmed=True] and no confirmed row of the user for [email],
    [set_primary_email] raises [EmailNotConfirmed] and leaves the user
    object, the tables and the signals as they were; when the user has a
    confirmed row for [email], or [require_confirmed] is [False], it sets
    the attribute, saves it to the stored user row and sends one
    [primary_email_changed] with the old and the new address. *)
Theorem set_primary_email_requires_confirmation (self : User.t)
    (email : string) (w : World) :
  email <> SimpleEmailConfirmationUserMixin.get_primary_email self ->
  ((forall a, In a (email_address_table w) ->
              EmailAddress.user a = User.pk self ->
              EmailAddress.email a = email ->
              EmailAddressProperties.is_confirmed a = false) ->
   SimpleEmailConfirmationUserMixin.set_primary_email email true (self, w)
   = (Raises EmailNotConfirmed, (self, w)))
  /\ (forall require_confirmed : bool,
        (exists a, In a (email_address_table w)
                   /\ EmailAddress.user a = User.pk self
                   /\ EmailAddress.email a = email
                   /\ EmailAddressProperties.is_confirmed a = true)
        \/ require_confirmed = false ->
        (exists r, In r (user_table w) /\ User.pk r = User.pk self) ->
        exists w',
          SimpleEmailConfirmationUserMixin.set_primary_email email
            require_confirmed (self, w)
          = (Returns tt, (User.set_email email self, w'))
          /\ user_table w'
             = map (fun r => if Nat.eqb (User.pk r) (User.pk self)
                             then User.set_email email r else r)
                   (user_table w)
          /\ (forall r, In r (user_table w') ->
                        User.pk r = User.pk self -> User.email r = email)
          /\ sent w'
             = sent w ++ [primary_email_changed (User.pk self)
                            (User.email self) email]
          /\ email_address_table w' = email_address_table w).
Proof.
  intros Hneq. apply String.eqb_neq in Hneq.
  unfold SimpleEmailConfirmationUserMixin.set_primary_email,
    SimpleEmailConfirmationUserMixin.confirmed_emails,
    SimpleEmailConfirmationUserMixin.get_confirmed_emails,
    bind, self_, on_world, query, ret, raise, assign.
  simpl. rewrite Hneq.
  pose proof (py_in_confirmed_emails self email w) as Hin.
  destruct (SimpleEmailConfirmationUserMixin.py_in email _) eqn:E.
  - split.
    + intros Hnone. exfalso.
      destruct (proj1 Hin eq_refl) as [a [Ha [Hu [He Hc]]]].
      rewrite (Hnone a Ha Hu He) in Hc. discriminate.
    + intros require_confirmed _ [r [Hr Hpk]]. simpl.
      unfold ORM.save_user_email. simpl.
      assert (Hex : existsb (fun r0 => Nat.eqb (User.pk r0) (User.pk self))
                      (user_table w) = true).
      { apply existsb_exists. exists r. split; [assumption|].
        now apply Nat.eqb_eq. }
      rewrite Hex. simpl. eexists. split; [reflexivity|]. simpl.
      split; [reflexivity|]. split; [|split; reflexivity].
      intros r0 Hr0 Hpk0. apply in_map_iff in Hr0.
      destruct Hr0 as [r1 [Hr1 _]]. subst r0.
      destruct (Nat.eqb (User.pk r1) (User.pk self)) eqn:E1;
        [reflexivity|].
      apply Nat.eqb_neq in E1. contradiction.
  - split.
    + intros _. reflexivity.
    + intros require_confirmed [Hconf|Hrc] [r [Hr Hpk]].
      * apply Hin in Hconf. discriminate.
      * subst require_confirmed. simpl.
        unfold ORM.save_user_email. simpl.
        assert (Hex : existsb (fun r0 => Nat.eqb (User.pk r0) (User.pk self))
                        (user_table w) = true).
        { apply existsb_exists. exists r. split; [assumption|].
          now apply Nat.eqb_eq. }
        rewrite Hex. simpl. eexists. split; [reflexivity|]. simpl.
        split; [reflexivity|]. split; [|split; reflexivity].
        intros r0 Hr0 Hpk0. apply in_map_iff in Hr0.
        destruct Hr0 as [r1 [Hr1 _]]. subst r0.
        destruct (Nat.eqb (User.pk r1) (User.pk self)) eqn:E1;
          [reflexivity|].
        apply Nat.eqb_neq in E1. contradiction.
Qed.

Lemma set_primary_email_requires_confirmation_witness :
  SimpleEmailConfirmationUserMixin.set_primary_email "d@x.com" true
    (Sample.alice, Sample.world)
  = (Raises EmailNotConfirmed, (Sample.alice, Sample.world))
  /\ exists w',
       SimpleEmailConfirmationUserMixin.set_primary_email "c@x.com" true
         (Sample.alice, Sample.world)
       = (Returns tt, (User.set_email "c@x.com" Sample.alice, w'))
       /\ sent w' = [primary_email_changed 1 "a@x.com" "c@x.com"].
Proof.
  split.
  - apply (proj1 (set_primary_email_requires_confirmation Sample.alice
                    "d@x.com" Sample.world ltac:(discriminate))).
    simpl. intros a [<-|[<-|[]]]; simpl; intros; try reflexivity;
      discriminate.
  - destruct (proj2 (set_primary_email_requires_confirmation Sample.alice
                       "c@x.com" Sample.world ltac:(discriminate)) true)
      as [w' [H1 [_ [_ [H2 _]]]]].
    + left. exists Sample.row2. simpl. tauto.
    + exists Sample.alice. simpl. tauto.
    + exists w'. split; [exact H1 | exact H2].
Defined.

(** ** Removing an address *)

(** C6: [remove_email] raises [EmailIsPrimary] when [email] is the current
    primary address, and then the state (and any row for it) is untouched;
    otherwise it raises [DoesNotExist] when the user has no row for
    [email]; otherwise it deletes that row, keeps every row with another
    primary key, and sends no signal. *)
Theorem remove_email_cases (self : User.t) (email : string) (w : World) :
  (email = SimpleEmailConfirmationUserMixin.get_primary_email self ->
   SimpleEmailConfirmationUserMixin.remove_email self email w
   = (Raises EmailIsPrimary, w))
  /\ (email <> SimpleEmailConfirmationUserMixin.get_primary_email self ->
      (forall a, In a (email_address_table w) ->
                 EmailAddress.user a = User.pk self ->
                 EmailAddress.email a <> email) ->
      SimpleEmailConfirmationUserMixin.remove_email self email w
      = (Raises DoesNotExist, w))
  /\ (email <> SimpleEmailConfirmationUserMixin.get_primary_email self ->
      unique_together w ->
      forall a, In a (email_address_table w) ->
                EmailAddress.user a = User.pk self ->
                EmailAddress.email a = email ->
      exists w',
        SimpleEmailConfirmationUserMixin.remove_email self email w
        = (Returns tt, w')
        /\ email_address_table w'
           = filter (fun r => negb (Nat.eqb (EmailAddress.pk r)
                                            (EmailAddress.pk a)))
                    (email_address_table w)
        /\ ~ In a (email_address_table w')
        /\ (forall b, In b (email_address_table w) ->
                      EmailAddress.pk b <> EmailAddress.pk a ->
                      In b (email_address_table w'))
        /\ sent w' = sent w
        /\ user_table w' = user_table w).
Proof.
  unfold SimpleEmailConfirmationUserMixin.remove_email.
  split; [|split].
  - intros ->. now rewrite String.eqb_refl.
  - intros Hneq Hnone. apply String.eqb_neq in Hneq. rewrite Hneq.
    unfold bind. now rewrite (get_address_missing self email w Hnone).
  - intros Hneq Hut a Hin Hu He. apply String.eqb_neq in Hneq. rewrite Hneq.
    unfold bind. rewrite (get_address_found self email w a Hut Hin Hu He).
    unfold ORM.delete. eexists. split; [reflexivity|]. simpl.
    split; [reflexivity|]. split; [|split; [|split; reflexivity]].
    + intros Hin'. apply filter_In in Hin'. destruct Hin' as [_ Hpk].
      rewrite Nat.eqb_refl in Hpk. discriminate.
    + intros b Hb Hpk. apply filter_In. split; [assumption|].
      apply negb_true_iff. now apply Nat.eqb_neq.
Qed.

Lemma remove_email_cases_witness :
  SimpleEmailConfirmationUserMixin.remove_email Sample.alice "a@x.com"
    Sample.world = (Raises EmailIsPrimary, Sample.world)
  /\ SimpleEmailConfirmationUserMixin.remove_email Sample.alice "d@x.com"
       Sample.world = (Raises DoesNotExist, Sample.world)
  /\ exists w',
       SimpleEmailConfirmationUserMixin.remove_email Sample.alice "c@x.com"
         Sample.world = (Returns tt, w')
       /\ ~ In Sample.row2 (email_address_table w')
       /\ sent w' = sent Sample.world.
Proof.
  pose proof (remove_email_cases Sample.alice "a@x.com" Sample.world) as Ha.
  pose proof (remove_email_cases Sample.alice "d@x.com" Sample.world) as Hd.
  pose proof (remove_email_cases Sample.alice "c@x.com" Sample.world) as Hc.
  split; [|split].
  - apply (proj1 Ha). reflexivity.
  - apply (proj1 (proj2 Hd)); [discriminate|].
    simpl. intros a [<-|[<-|[]]]; simpl; discriminate.
  - destruct (proj2 (proj2 Hc) ltac:(discriminate)) with (a := Sample.row2)
      as [w' [H1 [_ [H2 [_ [H3 _]]]]]].
    + unfold unique_together. simpl.
      repeat constructor; simpl; intuition discriminate.
    + simpl. tauto.
    + reflexivity.
    + reflexivity.
    + exists w'. split; [exact H1|]. split; [exact H2 | exact H3].
Defined.

(** ** Resetting a confirmation *)

Lemma generate_key_default env w k :
  fst (EmailAddressManager.generate_key env None w) = Returns k ->
  EmailAddressManager.generate_key env None w
  = (Returns k,
     {| email_address_table := email_address_table w;
        email_address_next_pk := email_address_next_pk w;
        user_table := user_table w; sent := sent w;
        clock_reads := clock_reads w;
        random_draws :=
          random_draws w + Z.to_nat (random_string_default_length env) |}).
Proof.
  unfold EmailAddressManager.generate_key, get_random_string. simpl.
  intros E. injection E as <-. reflexivity.
Qed.

Lemma fresh_key_no_collision (rows : list EmailAddress.t) (k : string)
    (p : EmailAddress.t -> bool) :
  ~ In k (map EmailAddress.key rows) ->
  existsb (fun r => p r && String.eqb (EmailAddress.key r) k) rows = false.
Proof.
  intros Hfresh. destruct (existsb _ _) eqn:E; [|reflexivity]. exfalso.
  apply existsb_exists in E. destruct E as [r [Hr Hp]].
  apply andb_true_iff in Hp. destruct Hp as [_ Hk].
  apply String.eqb_eq in Hk. apply Hfresh. rewrite <- Hk. now apply in_map.
Qed.

(** What [reset_confirmation] does to a stored row when the generated key
    is not in the table yet. *)
Lemma reset_confirmation_run env (a : EmailAddress.t) (w : World) (k : string) :
  In a (email_address_table w) ->
  fst (EmailAddressManager.generate_key env None w) = Returns k ->
  ~ In k (map EmailAddress.key (email_address_table w)) ->
  let a' := EmailAddress.mk (EmailAddress.pk a) (EmailAddress.user a)
              (EmailAddress.email a) k (wall_clock env (clock_reads w)) None in
  reset_confirmation env (a, w)
  = (Returns k,
     (a',
      {| email_address_table :=
           map (ORM.update_row a' [EmailAddress.f_key; EmailAddress.f_set_at;
                                   EmailAddress.f_confirmed_at])
               (email_address_table w);
         email_address_next_pk := email_address_next_pk w;
         user_table := user_table w; sent := sent w;
         clock_reads := S (clock_reads w);
         random_draws :=
           random_draws w + Z.to_nat (random_string_default_length env) |})).
Proof.
  intros Hin Hk Hfresh a'.
  unfold reset_confirmation, bind, on_world, assign, self_, ret.
  simpl fst. simpl snd.
  rewrite (generate_key_default env w k Hk). simpl.
  unfold ORM.save. simpl.
  rewrite (existsb_pk_In _ a Hin). simpl.
  rewrite (fresh_key_no_collision _ k _ Hfresh). reflexivity.
Qed.

(** C3, amended: on a stored row, when the generated key is not yet the key
    of any row of the table, [reset_confirmation] returns that key; afterwards the object and its
    row carry the new key, [set_at] equal to the clock reading and
    [confirmed_at = None]; no row carries the previous key any more, and
    [confirm] with the previous key raises [DoesNotExist]. *)
Theorem reset_confirmation_invalidates_old_key (env : Env)
    (a : EmailAddress.t) (w : World) (k : string) :
  unique_keys w ->
  In a (email_address_table w) ->
  fst (EmailAddressManager.generate_key env None w) = Returns k ->
  ~ In k (map EmailAddress.key (email_address_table w)) ->
  exists w',
    let a' := EmailAddress.mk (EmailAddress.pk a) (EmailAddress.user a)
                (EmailAddress.email a) k (wall_clock env (clock_reads w))
                None in
    reset_confirmation env (a, w) = (Returns k, (a', w'))
    /\ In a' (email_address_table w')
    /\ k <> EmailAddress.key a
    /\ (forall b, In b (email_address_table w') ->
                  EmailAddress.key b <> EmailAddress.key a)
    /\ sent w' = sent w
    /\ (forall mgr user save,
          EmailAddressManager.confirm env mgr (EmailAddress.key a) user save w'
          = (Raises DoesNotExist, w')).
Proof.
  intros Huk Hin Hk Hfresh.
  pose proof (reset_confirmation_run env a w k Hin Hk Hfresh) as Hrun.
  cbv zeta in Hrun.
  set (a' := EmailAddress.mk (EmailAddress.pk a) (EmailAddress.user a)
               (EmailAddress.email a) k (wall_clock env (clock_reads w))
               None) in *.
  eexists. cbv zeta. fold a'. split; [exact Hrun|]. simpl.
  assert (Hneq : k <> EmailAddress.key a).
  { intros ->. apply Hfresh. now apply in_map. }
  assert (Hgone : forall b,
    In b (map (ORM.update_row a' [EmailAddress.f_key; EmailAddress.f_set_at;
                                  EmailAddress.f_confirmed_at])
              (email_address_table w)) ->
    EmailAddress.key b <> EmailAddress.key a).
  { intros b Hb. apply in_map_iff in Hb. destruct Hb as [r [<- Hr]].
    unfold ORM.update_row. simpl.
    destruct (Nat.eqb (EmailAddress.pk r) (EmailAddress.pk a)) eqn:E; simpl.
    - exact Hneq.
    - intros Hkey. apply Nat.eqb_neq in E. apply E. f_equal.
      exact (NoDup_map_injective_on EmailAddress.key _ r a Huk Hr Hin Hkey). }
  split.
  { apply in_map_iff. exists a. split; [|assumption].
    unfold ORM.update_row. simpl. now rewrite Nat.eqb_refl. }
  split; [exact Hneq|]. split; [exact Hgone|]. split; [reflexivity|].
  intros mgr user save.
  unfold EmailAddressManager.confirm, bind, query.
  rewrite confirm_queryset_filter. unfold QuerySet.by_key.
  rewrite filter_none; [reflexivity|].
  intros b Hb. apply filter_In in Hb. destruct Hb as [Hb _].
  apply String.eqb_neq. now apply Hgone.
Qed.

Lemma reset_confirmation_invalidates_old_key_witness :
  exists a' w',
    reset_confirmation (Sample.env None) (Sample.row2, Sample.world)
    = (Returns "abcdefghijkl", (a', w'))
    /\ EmailAddress.confirmed_at a' = None
    /\ EmailAddress.set_at a' = 200%Z
    /\ EmailAddressManager.confirm (Sample.env None)
         (EmailAddressManager.mk None) "k2" None true w'
       = (Raises DoesNotExist, w').
Proof.
  destruct (reset_confirmation_invalidates_old_key (Sample.env None)
              Sample.row2 Sample.world "abcdefghijkl")
    as [w' [H1 [_ [_ [_ [_ H2]]]]]].
  - unfold unique_keys. simpl.
    repeat constructor; simpl; intuition discriminate.
  - simpl. tauto.
  - reflexivity.
  - simpl. intuition discriminate.
  - eexists. exists w'. split; [exact H1|].
    split; [reflexivity|]. split; [reflexivity|]. apply H2.
Defined.

(** C3 without the condition on the generated key: when the generator
    repeats itself, resetting the row whose key is "k" yields "k" again, so
    [confirm] with the previous key still finds the row and confirms it;
    and resetting the other row, whose new key would be "k" too, raises
    [IntegrityError] instead of succeeding. *)
Lemma reset_confirmation_repeated_key_counterexample :
  unique_keys Collision.world
  /\ In Collision.row_k (email_address_table Collision.world)
  /\ In Collision.row_j (email_address_table Collision.world)
  /\ fst (reset_confirmation Collision.env
            (Collision.row_k, Collision.world))
     = Returns (EmailAddress.key Collision.row_k)
  /\ fst (EmailAddressManager.confirm Collision.env
            (EmailAddressManager.mk None) (EmailAddress.key Collision.row_k)
            None true
            (snd (snd (reset_confirmation Collision.env
                         (Collision.row_k, Collision.world)))))
     = Returns (EmailAddress.mk 1 1 "a@x.com" "k" 0%Z (Some 1%Z))
  /\ fst (reset_confirmation Collision.env
            (Collision.row_j, Collision.world))
     = Raises IntegrityError.
Proof.
  split.
  { unfold unique_keys. simpl.
    repeat constructor; simpl; intuition discriminate. }
  split; [simpl; tauto|]. split; [simpl; tauto|].
  repeat split; reflexivity.
Qed.

(** ** Adding an address unless it is there *)




(** * Beyond the claims: inserting a row keeps the constraints *)

Lemma store_ok_same_table (w w' : World) :
  email_address_table w' = email_address_table w ->
  email_address_next_pk w' = email_address_next_pk w ->
  store_ok w -> store_ok w'.
Proof.
  unfold store_ok, unique_keys, unique_together.
  intros -> ->. tauto.
Qed.

Lemma preserves_ret {A} (a : A) : preserves (ret a).
Proof. intros w H. exact H. Qed.

Lemma preserves_raise {A} (e : Exn) : preserves (@raise World A e).
Proof. intros w H. exact H. Qed.

Lemma preserves_bind {A B} (m : M World A) (k : A -> M World B) :
  preserves m -> (forall a, preserves (k a)) -> preserves (bind m k).
Proof.
  intros Hm Hk w H. unfold bind. specialize (Hm w H).
  destruct (m w) as [[a|e] w1]; simpl in *; [now apply Hk | exact Hm].
Qed.

Lemma preserves_timezone_now env : preserves (timezone_now env).
Proof.
  intros w H. now apply (store_ok_same_table w).
Qed.

Lemma preserves_generate_key env key_length :
  preserves (EmailAddressManager.generate_key env key_length).
Proof.
  intros w H. destruct key_length; now apply (store_ok_same_table w).
Qed.

Lemma preserves_send (s : Signal) : preserves (send s).
Proof.
  intros w H. now apply (store_ok_same_table w).
Qed.

Lemma NoDup_snoc {A} (l : list A) (x : A) :
  NoDup l -> ~ In x l -> NoDup (l ++ [x]).
Proof.
  induction l as [|y l IH]; simpl; intros Hnd Hx.
  - constructor; [tauto | constructor].
  - inversion Hnd as [|? ? Hy Hrest]; subst. constructor.
    + rewrite in_app_iff. simpl. intros [Hin|[->|[]]]; tauto.
    + apply IH; tauto.
Qed.

(** [INSERT] keeps the constraints: it refuses a key or a pair that is
    taken and hands out a primary key that is not in use. *)
Lemma preserves_insert u e k s c : preserves (ORM.insert u e k s c).
Proof.
  intros w [Hpk [Hlt [Hk Hut]]]. unfold ORM.insert.
  destruct (existsb _ _) eqn:E; simpl; [repeat split; assumption|].
  assert (Hfree : forall r, In r (email_address_table w) ->
            EmailAddress.key r <> k
            /\ (EmailAddress.user r, EmailAddress.email r) <> (u, e)).
  { intros r Hr.
    assert (Hrow : (String.eqb (EmailAddress.key r) k
                    || (Nat.eqb (EmailAddress.user r) u
                        && String.eqb (EmailAddress.email r) e)) = false).
    { destruct (_ || _) eqn:Er; [|reflexivity].
      rewrite <- E. symmetry. apply existsb_exists. exists r. tauto. }
    apply orb_false_iff in Hrow. destruct Hrow as [Hkey Hpair].
    split.
    - now apply String.eqb_neq.
    - intros Heq. injection Heq as Hu He.
      apply Nat.eqb_eq in Hu. apply String.eqb_eq in He.
      rewrite Hu, He in Hpair. discriminate. }
  unfold store_ok, unique_keys, unique_together. simpl.
  rewrite !map_app. simpl. repeat split.
  - apply NoDup_snoc; [assumption|]. intros Hin.
    apply in_map_iff in Hin. destruct Hin as [r [Hr Hin]].
    specialize (Hlt r Hin). lia.
  - intros a Ha. apply in_app_iff in Ha. destruct Ha as [Ha|[<-|[]]].
    + specialize (Hlt a Ha). lia.
    + simpl. lia.
  - apply NoDup_snoc; [assumption|]. intros Hin.
    apply in_map_iff in Hin. destruct Hin as [r [Hr Hin]].
    exact (proj1 (Hfree r Hin) Hr).
  - apply NoDup_snoc; [assumption|]. intros Hin.
    apply in_map_iff in Hin. destruct Hin as [r [Hr Hin]].
    exact (proj2 (Hfree r Hin) Hr).
Qed.

Lemma update_row_owner self fields r :
  (EmailAddress.user (ORM.update_row self fields r),
   EmailAddress.email (ORM.update_row self fields r))
  = (EmailAddress.user r, EmailAddress.email r).
Proof.
  unfold ORM.update_row. now destruct (Nat.eqb _ _).
Qed.

Lemma update_row_key self fields r :
  EmailAddress.key (ORM.update_row self fields r)
  = if Nat.eqb (EmailAddress.pk r) (EmailAddress.pk self)
       && EmailAddress.listed EmailAddress.f_key fields
    then EmailAddress.key self else EmailAddress.key r.
Proof.
  unfold ORM.update_row.
  destruct (Nat.eqb _ _); simpl; [|reflexivity].
  now destruct (EmailAddress.listed _ _).
Qed.

Lemma preserves_create env mgr user email key set_at confirmed_at :
  preserves (EmailAddressManager.create env mgr user email key set_at
               confirmed_at).
Proof.
  unfold EmailAddressManager.create.
  apply preserves_bind; [|intros s; apply preserves_insert].
  destruct set_at; [apply preserves_ret | apply preserves_timezone_now].
Qed.

Lemma preserves_create_unconfirmed env mgr email user key_length :
  preserves (EmailAddressManager.create_unconfirmed env mgr email user
               key_length).
Proof.
  unfold EmailAddressManager.create_unconfirmed.
  destruct (EmailAddressManager.user_or_instance mgr user);
    [|apply preserves_raise].
  apply preserves_bind; [apply preserves_generate_key|]. intros key.
  apply preserves_bind; [apply preserves_create|]. intros address.
  apply preserves_bind; [apply preserves_send|]. intros _.
  apply preserves_ret.
Qed.

Lemma scenario_world_ok : store_ok Scenario.world.
Proof.
  unfold store_ok, unique_keys, unique_together. simpl. repeat split.
  - repeat constructor; simpl; intuition discriminate.
  - intros a [<-|[<-|[<-|[]]]]; simpl; lia.
  - repeat constructor; simpl; intuition discriminate.
  - repeat constructor; simpl; intuition discriminate.
Qed.

(** * Beyond the claims: adding, looking up and confirming *)

(** [generate_key] only moves the random generator on. *)
Lemma generate_key_run env key_length w k :
  fst (EmailAddressManager.generate_key env key_length w) = Returns k ->
  exists draws,
    EmailAddressManager.generate_key env key_length w
    = (Returns k,
       {| email_address_table := email_address_table w;
          email_address_next_pk := email_address_next_pk w;
          user_table := user_table w; sent := sent w;
          clock_reads := clock_reads w;
          random_draws := draws |}).
Proof.
  unfold EmailAddressManager.generate_key, get_random_string.
  destruct key_length; simpl; intros E; injection E as <-;
    eexists; reflexivity.
Qed.

Lemma insert_free (rows : list EmailAddress.t) (u : nat) (e k : string) :
  ~ In k (map EmailAddress.key rows) ->
  (forall a, In a rows -> EmailAddress.user a = u ->
             EmailAddress.email a <> e) ->
  existsb (fun r => String.eqb (EmailAddress.key r) k
                    || (Nat.eqb (EmailAddress.user r) u
                        && String.eqb (EmailAddress.email r) e)) rows
  = false.
Proof.
  intros Hfresh Hnone.
  destruct (existsb _ _) eqn:E; [|reflexivity]. exfalso.
  apply existsb_exists in E. destruct E as [r [Hr Hp]].
  apply orb_true_iff in Hp. destruct Hp as [Hp|Hp].
  - apply String.eqb_eq in Hp. apply Hfresh. rewrite <- Hp. now apply in_map.
  - apply andb_true_iff in Hp. destruct Hp as [Hpu Hpe].
    apply Nat.eqb_eq in Hpu. apply String.eqb_eq in Hpe.
    exact (Hnone r Hr Hpu Hpe).
Qed.

Lemma insert_taken (rows : list EmailAddress.t) (u : nat) (e k : string)
    (a : EmailAddress.t) :
  In a rows -> EmailAddress.user a = u -> EmailAddress.email a = e ->
  existsb (fun r => String.eqb (EmailAddress.key r) k
                    || (Nat.eqb (EmailAddress.user r) u
                        && String.eqb (EmailAddress.email r) e)) rows
  = true.
Proof.
  intros Hin Hu He. apply existsb_exists. exists a. split; [assumption|].
  apply orb_true_iff. right. apply andb_true_iff.
  split; [now apply Nat.eqb_eq | now apply String.eqb_eq].
Qed.

(** What [add_unconfirmed_email] does when the user has no row for the
    address and the generated key is not in the table. *)
Lemma add_unconfirmed_email_run env self email key_length w k :
  (forall a, In a (email_address_table w) ->
             EmailAddress.user a = User.pk self ->
             EmailAddress.email a <> email) ->
  fst (EmailAddressManager.generate_key env key_length w) = Returns k ->
  ~ In k (map EmailAddress.key (email_address_table w)) ->
  exists draws,
    SimpleEmailConfirmationUserMixin.add_unconfirmed_email env self email
      key_length w
    = (Returns k,
       {| email_address_table :=
            email_address_table w
            ++ [EmailAddress.mk (email_address_next_pk w) (User.pk self)
                  email k (wall_clock env (clock_reads w)) None];
          email_address_next_pk := S (email_address_next_pk w);
          user_table := user_table w;
          sent := sent w ++ [unconfirmed_email_created (User.pk self) email];
          clock_reads := S (clock_reads w);
          random_draws := draws |}).
Proof.
  intros Hnone Hk Hfresh.
  destruct (generate_key_run env key_length w k Hk) as [draws Hg].
  exists draws.
  unfold SimpleEmailConfirmationUserMixin.add_unconfirmed_email,
    EmailAddressManager.create_unconfirmed,
    EmailAddressManager.user_or_instance,
    SimpleEmailConfirmationUserMixin.email_address_set, bind.
  cbn [EmailAddressManager.instance]. rewrite Hg.
  unfold EmailAddressManager.create, bind, timezone_now, ORM.insert. simpl.
  rewrite (insert_free _ _ _ _ Hfresh Hnone). reflexivity.
Qed.

Lemma unique_together_snoc (rows : list EmailAddress.t) (a : EmailAddress.t) :
  NoDup (map (fun r => (EmailAddress.user r, EmailAddress.email r)) rows) ->
  (forall r, In r rows -> EmailAddress.user r = EmailAddress.user a ->
             EmailAddress.email r <> EmailAddress.email a) ->
  NoDup (map (fun r => (EmailAddress.user r, EmailAddress.email r))
             (rows ++ [a])).
Proof.
  intros Hnd Hnone. rewrite map_app. simpl. apply NoDup_snoc; [assumption|].
  intros Hin. apply in_map_iff in Hin. destruct Hin as [r [Hr Hin]].
  injection Hr as Hu He. exact (Hnone r Hin Hu He).
Qed.

(** X4: adding an unconfirmed address and asking for its confirmation key
    is a round trip: when the user has no row for the (non-empty) address
    and the generated key is new, [add_unconfirmed_email] returns the key,
    sends one [unconfirmed_email_created], and afterwards
    [get_confirmation_key(email)] returns the same key and the address is
    among the unconfirmed emails and not among the confirmed ones. *)
Theorem add_then_get_confirmation_key (env : Env) (self : User.t)
    (email : string) (key_length : option Z) (w : World) (k : string) :
  unique_together w ->
  email <> "" ->
  (forall a, In a (email_address_table w) ->
             EmailAddress.user a = User.pk self ->
             EmailAddress.email a <> email) ->
  fst (EmailAddressManager.generate_key env key_length w) = Returns k ->
  ~ In k (map EmailAddress.key (email_address_table w)) ->
  exists w',
    SimpleEmailConfirmationUserMixin.add_unconfirmed_email env self email
      key_length w = (Returns k, w')
    /\ sent w' = sent w ++ [unconfirmed_email_created (User.pk self) email]
    /\ SimpleEmailConfirmationUserMixin.get_confirmation_key self
         (Some email) w' = (Returns k, w')
    /\ (exists emails,
          SimpleEmailConfirmationUserMixin.get_unconfirmed_emails self w'
          = (Returns emails, w') /\ In email emails)
    /\ (exists emails,
          SimpleEmailConfirmationUserMixin.get_confirmed_emails self w'
          = (Returns emails, w') /\ ~ In email emails).
Proof.
  intros Hut Hne Hnone Hk Hfresh.
  destruct (add_unconfirmed_email_run env self email key_length w k
              Hnone Hk Hfresh) as [draws Hrun].
  eexists. split; [exact Hrun|]. split; [reflexivity|].
  set (a := EmailAddress.mk (email_address_next_pk w) (User.pk self) email k
              (wall_clock env (clock_reads w)) None).
  set (w' := mkWorld _ _ _ _ _ _).
  assert (Hut' : unique_together w').
  { unfold unique_together, w'. simpl. apply unique_together_snoc; auto. }
  assert (Hin : In a (email_address_table w')).
  { unfold w'. simpl. apply in_app_iff. right. now left. }
  split; [|split].
  - unfold SimpleEmailConfirmationUserMixin.get_confirmation_key, bind.
    apply String.eqb_neq in Hne. rewrite Hne.
    rewrite (get_address_found self email w' a Hut' Hin eq_refl eq_refl).
    reflexivity.
  - eexists. split; [reflexivity|].
    apply in_map_iff. exists a. split; [reflexivity|].
    apply filter_In. split; [|reflexivity].
    apply filter_In. split; [exact Hin|]. apply Nat.eqb_refl.
  - eexists. split; [reflexivity|].
    intros Hc. apply in_map_iff in Hc. destruct Hc as [r [He Hr]].
    apply filter_In in Hr. destruct Hr as [Hr Hconf].
    apply filter_In in Hr. destruct Hr as [Hr Hu].
    apply Nat.eqb_eq in Hu.
    assert (r = a).
    { eapply (NoDup_map_injective_on
                (fun r => (EmailAddress.user r, EmailAddress.email r)));
        [exact Hut' | exact Hr | exact Hin |].
      simpl. congruence. }
    subst r. discriminate.
Qed.

Lemma add_then_get_confirmation_key_witness :
  exists w',
    SimpleEmailConfirmationUserMixin.add_unconfirmed_email (Sample.env None)
      Scenario.carol "c2@x.com" (Some 4%Z) Scenario.world
    = (Returns "abcd", w')
    /\ SimpleEmailConfirmationUserMixin.get_confirmation_key Scenario.carol
         (Some "c2@x.com") w' = (Returns "abcd", w').
Proof.
  destruct (add_then_get_confirmation_key (Sample.env None) Scenario.carol
              "c2@x.com" (Some 4%Z) Scenario.world "abcd")
    as [w' [H1 [_ [H2 _]]]].
  - exact (proj2 (proj2 (proj2 scenario_world_ok))).
  - discriminate.
  - simpl. intros a [<-|[<-|[<-|[]]]]; simpl; intros; discriminate.
  - reflexivity.
  - simpl. intuition discriminate.
  - exists w'. split; [exact H1 | exact H2].
Defined.

(** What the first [confirm] of an unconfirmed, unexpired row does. *)
Lemma confirm_run env mgr user w a :
  unique_keys w ->
  In a (EmailAddressManager.confirm_queryset mgr user w) ->
  EmailAddressProperties.is_confirmed a = false ->
  unexpired_at env a (wall_clock env (clock_reads w)) ->
  exists now w1,
    EmailAddressManager.confirm env mgr (EmailAddress.key a) user true w
    = (Returns (EmailAddress.set_confirmed_at (Some now) a), w1)
    /\ email_address_table w1
       = map (ORM.update_row (EmailAddress.set_confirmed_at (Some now) a)
                [EmailAddress.f_confirmed_at])
             (email_address_table w)
    /\ sent w1 = sent w ++ [email_confirmed (EmailAddress.user a)
                                            (EmailAddress.email a)]
    /\ email_address_next_pk w1 = email_address_next_pk w
    /\ user_table w1 = user_table w.
Proof.
  intros Hk Hin Hunconf Hun.
  destruct (confirm_scope_in mgr user w a Hin) as [Hina _].
  destruct (is_key_expired_unexpired env a w Hun)
    as [v [w0 [Hexp [Hv [[Ht [Hn [Hu Hs]]] _]]]]].
  exists (wall_clock env (clock_reads w0)). eexists.
  split.
  - unfold EmailAddressManager.confirm, bind, query.
    rewrite (confirm_lookup mgr user w a Hk Hin). simpl.
    rewrite Hexp, Hv, Hunconf. simpl.
    unfold ORM.save. rewrite Ht. simpl.
    rewrite (existsb_pk_In _ a Hina). simpl. reflexivity.
  - simpl. rewrite Hn, Hu, Hs. repeat split; reflexivity.
Qed.

Lemma in_confirmed_emails (self : User.t) (w : World) (a : EmailAddress.t) :
  In a (email_address_table w) ->
  EmailAddress.user a = User.pk self ->
  EmailAddressProperties.is_confirmed a = true ->
  exists emails,
    SimpleEmailConfirmationUserMixin.get_confirmed_emails self w
    = (Returns emails, w)
    /\ In (EmailAddress.email a) emails.
Proof.
  intros Hin Hu Hc. eexists. split; [reflexivity|].
  apply in_map_iff. exists a. split; [reflexivity|].
  apply filter_In. split.
  - apply filter_In. split; [exact Hin | now apply Nat.eqb_eq].
  - unfold EmailAddressProperties.is_confirmed in Hc.
    destruct (EmailAddress.confirmed_at a); [reflexivity | discriminate].
Qed.

(** X5: adding an unconfirmed address and confirming it with the returned
    key: when the address is new to the user, the generated key is new and
    the period (if any) has not run out by the time of the check,
    [confirm_email(key)] returns the address, the two calls together send
    [unconfirmed_email_created] and then exactly one [email_confirmed], and
    the address is among the user's confirmed emails afterwards. *)
Theorem add_then_confirm_email (env : Env) (self : User.t) (email : string)
    (key_length : option Z) (w : World) (k : string) :
  unique_keys w ->
  (forall a, In a (email_address_table w) ->
             EmailAddress.user a = User.pk self ->
             EmailAddress.email a <> email) ->
  fst (EmailAddressManager.generate_key env key_length w) = Returns k ->
  ~ In k (map EmailAddress.key (email_address_table w)) ->
  (forall period,
      SIMPLE_EMAIL_CONFIRMATION_PERIOD env = Some period ->
      (wall_clock env (S (clock_reads w))
       < wall_clock env (clock_reads w) + period)%Z) ->
  exists w1 w2,
    SimpleEmailConfirmationUserMixin.add_unconfirmed_email env self email
      key_length w = (Returns k, w1)
    /\ SimpleEmailConfirmationUserMixin.confirm_email env self k true w1
       = (Returns email, w2)
    /\ sent w2 = sent w ++ [unconfirmed_email_created (User.pk self) email;
                            email_confirmed (User.pk self) email]
    /\ (exists emails,
          SimpleEmailConfirmationUserMixin.get_confirmed_emails self w2
          = (Returns emails, w2) /\ In email emails).
Proof.
  intros Huk Hnone Hk Hfresh Hperiod.
  destruct (add_unconfirmed_email_run env self email key_length w k
              Hnone Hk Hfresh) as [draws Hrun].
  set (a := EmailAddress.mk (email_address_next_pk w) (User.pk self) email k
              (wall_clock env (clock_reads w)) None) in *.
  set (w1 := mkWorld _ _ _ _ _ _) in Hrun.
  assert (Huk1 : unique_keys w1).
  { unfold unique_keys, w1. simpl. rewrite map_app. simpl.
    now apply NoDup_snoc. }
  assert (Hin1 : In a (EmailAddressManager.confirm_queryset
                         (SimpleEmailConfirmationUserMixin.email_address_set
                            self) None w1)).
  { rewrite confirm_queryset_filter. apply filter_In. split.
    - unfold w1. simpl. apply in_app_iff. right. now left.
    - unfold confirm_scope. simpl. now rewrite Nat.eqb_refl. }
  destruct (confirm_run env _ None w1 a Huk1 Hin1 eq_refl)
    as [now [w2 [Hc [Ht [Hs _]]]]].
  { intros period Hp. simpl. now apply Hperiod. }
  exists w1, w2. split; [exact Hrun|]. split; [|split].
  - unfold SimpleEmailConfirmationUserMixin.confirm_email, bind.
    change k with (EmailAddress.key a). rewrite Hc. reflexivity.
  - rewrite Hs. unfold w1. simpl. rewrite <- app_assoc. reflexivity.
  - apply (in_confirmed_emails self w2
             (EmailAddress.set_confirmed_at (Some now) a)).
    + rewrite Ht. apply in_map_iff. exists a. split.
      * apply update_row_self.
      * unfold w1. simpl. apply in_app_iff. right. now left.
    + reflexivity.
    + reflexivity.
Qed.

Lemma add_then_confirm_email_witness :
  exists w1 w2,
    SimpleEmailConfirmationUserMixin.add_unconfirmed_email
      (Sample.env (Some 10%Z)) Scenario.carol "c2@x.com" None Scenario.world
    = (Returns "abcdefghijkl", w1)
    /\ SimpleEmailConfirmationUserMixin.confirm_email
         (Sample.env (Some 10%Z)) Scenario.carol "abcdefghijkl" true w1
       = (Returns "c2@x.com", w2)
    /\ sent w2 = [unconfirmed_email_created 3 "c2@x.com";
                  email_confirmed 3 "c2@x.com"].
Proof.
  destruct (add_then_confirm_email (Sample.env (Some 10%Z)) Scenario.carol
              "c2@x.com" None Scenario.world "abcdefghijkl")
    as [w1 [w2 [H1 [H2 [H3 _]]]]].
  - exact (proj1 (proj2 (proj2 scenario_world_ok))).
  - simpl. intros a [<-|[<-|[<-|[]]]]; simpl; intros; discriminate.
  - reflexivity.
  - simpl. intuition discriminate.
  - intros period E. injection E as <-. simpl. lia.
  - exists w1, w2. split; [exact H1|]. split; [exact H2 | exact H3].
Defined.

(** X6: adding an address the user already has is refused: both
    [add_unconfirmed_email] and [add_confirmed_email] raise
    [IntegrityError], the tables are unchanged and no signal is sent (in
    particular no [unconfirmed_email_created]). *)
Theorem duplicate_address_is_refused (env : Env) (self : User.t)
    (email : string) (key_length : option Z) (w : World) :
  has_address self email w ->
  (exists w1,
      SimpleEmailConfirmationUserMixin.add_unconfirmed_email env self email
        key_length w = (Raises IntegrityError, w1)
      /\ same_store w w1)
  /\ (exists w2,
        SimpleEmailConfirmationUserMixin.add_confirmed_email env self email w
        = (Raises IntegrityError, w2)
        /\ same_store w w2).
Proof.
  intros [a [Hin [Hu He]]]. split.
  - unfold SimpleEmailConfirmationUserMixin.add_unconfirmed_email,
      EmailAddressManager.create_unconfirmed,
      EmailAddressManager.user_or_instance,
      SimpleEmailConfirmationUserMixin.email_address_set, bind.
    cbn [EmailAddressManager.instance].
    destruct (EmailAddressManager.generate_key env key_length w)
      as [r w0] eqn:Eg.
    assert (Hr : exists k, r = Returns k).
    { unfold EmailAddressManager.generate_key, get_random_string in Eg.
      destruct key_length; injection Eg as <- _; eexists; reflexivity. }
    destruct Hr as [k ->].
    destruct (generate_key_run env key_length w k) as [draws Hg];
      [now rewrite Eg|].
    rewrite Hg in Eg. injection Eg as <-.
    unfold EmailAddressManager.create, bind, timezone_now, ORM.insert. simpl.
    rewrite (insert_taken _ _ _ k a Hin Hu He).
    eexists. split; [reflexivity|]. unfold same_store. simpl. tauto.
  - unfold SimpleEmailConfirmationUserMixin.add_confirmed_email,
      EmailAddressManager.create_confirmed,
      EmailAddressManager.user_or_instance,
      SimpleEmailConfirmationUserMixin.email_address_set, bind.
    cbn [EmailAddressManager.instance].
    unfold timezone_now, EmailAddressManager.generate_key, get_random_string,
      EmailAddressManager.create, bind, ret, ORM.insert. simpl.
    rewrite (insert_taken _ _ _ _ a Hin Hu He).
    eexists. split; [reflexivity|]. unfold same_store. simpl. tauto.
Qed.

Lemma duplicate_address_is_refused_witness :
  exists w1,
    SimpleEmailConfirmationUserMixin.add_unconfirmed_email (Sample.env None)
      Scenario.carol "carol@x.com" None Scenario.world
    = (Raises IntegrityError, w1)
    /\ same_store Scenario.world w1.
Proof.
  apply (proj1 (duplicate_address_is_refused (Sample.env None) Scenario.carol
                  "carol@x.com" None Scenario.world
                  (ex_intro _ Scenario.row3
                     (conj (or_intror (or_intror (or_introl eq_refl)))
                           (conj eq_refl eq_refl))))).
Defined.

(** X7: [add_confirmed_email] for an address new to the user, with a new
    generated key, inserts a row whose [confirmed_at] and [set_at] are the
    same clock reading, returns its key and sends no signal at all; the
    address is among the confirmed emails afterwards. *)
Theorem add_confirmed_email_inserts_confirmed (env : Env) (self : User.t)
    (email : string) (w : World) (k : string) :
  (forall a, In a (email_address_table w) ->
             EmailAddress.user a = User.pk self ->
             EmailAddress.email a <> email) ->
  fst (EmailAddressManager.generate_key env None w) = Returns k ->
  ~ In k (map EmailAddress.key (email_address_table w)) ->
  exists w',
    let now := wall_clock env (clock_reads w) in
    SimpleEmailConfirmationUserMixin.add_confirmed_email env self email w
    = (Returns k, w')
    /\ email_address_table w'
       = email_address_table w
         ++ [EmailAddress.mk (email_address_next_pk w) (User.pk self) email k
               now (Some now)]
    /\ sent w' = sent w
    /\ (exists emails,
          SimpleEmailConfirmationUserMixin.get_confirmed_emails self w'
          = (Returns emails, w') /\ In email emails).
Proof.
  intros Hnone Hk Hfresh.
  unfold EmailAddressManager.generate_key, get_random_string in Hk.
  simpl in Hk. injection Hk as Hk.
  unfold SimpleEmailConfirmationUserMixin.add_confirmed_email,
    EmailAddressManager.create_confirmed,
    EmailAddressManager.user_or_instance,
    SimpleEmailConfirmationUserMixin.email_address_set, bind.
  cbn [EmailAddressManager.instance].
  unfold timezone_now, EmailAddressManager.generate_key, get_random_string,
    EmailAddressManager.create, bind, ret, ORM.insert. simpl.
  rewrite Hk. rewrite (insert_free _ _ _ _ Hfresh Hnone).
  eexists. split; [reflexivity|]. simpl.
  split; [reflexivity|]. split; [reflexivity|].
  set (a := EmailAddress.mk _ _ _ _ _ _).
  apply (in_confirmed_emails self _ a); try reflexivity.
  simpl. apply in_app_iff. right. now left.
Qed.

Lemma add_confirmed_email_inserts_confirmed_witness :
  exists w',
    SimpleEmailConfirmationUserMixin.add_confirmed_email (Sample.env None)
      Scenario.carol "c2@x.com" Scenario.world
    = (Returns "abcdefghijkl", w')
    /\ sent w' = sent Scenario.world.
Proof.
  destruct (add_confirmed_email_inserts_confirmed (Sample.env None)
              Scenario.carol "c2@x.com" Scenario.world "abcdefghijkl")
    as [w' [H1 [_ [H2 _]]]].
  - simpl. intros a [<-|[<-|[<-|[]]]]; simpl; intros; discriminate.
  - reflexivity.
  - simpl. intuition discriminate.
  - exists w'. split; [exact H1 | exact H2].
Defined.

(** X8: [confirm(key, save=False)] on an unconfirmed, unexpired row returns
    the object with [confirmed_at] set but writes nothing and sends no
    signal: the stored row is still unconfirmed. *)
Theorem confirm_without_save_changes_nothing (env : Env)
    (mgr : EmailAddressManager.t) (user : option User.t) (w : World)
    (a : EmailAddress.t) :
  unique_keys w ->
  In a (EmailAddressManager.confirm_queryset mgr user w) ->
  EmailAddressProperties.is_confirmed a = false ->
  unexpired_at env a (wall_clock env (clock_reads w)) ->
  exists now w1,
    EmailAddressManager.confirm env mgr (EmailAddress.key a) user false w
    = (Returns (EmailAddress.set_confirmed_at (Some now) a), w1)
    /\ same_store w w1
    /\ In a (email_address_table w1).
Proof.
  intros Hk Hin Hunconf Hun.
  destruct (confirm_scope_in mgr user w a Hin) as [Hina _].
  destruct (is_key_expired_unexpired env a w Hun)
    as [v [w0 [Hexp [Hv [[Ht [Hn [Hu Hs]]] _]]]]].
  exists (wall_clock env (clock_reads w0)). eexists. split.
  - unfold EmailAddressManager.confirm, bind, query.
    rewrite (confirm_lookup mgr user w a Hk Hin). simpl.
    rewrite Hexp, Hv, Hunconf. simpl. reflexivity.
  - unfold same_store. simpl. rewrite Ht, Hn, Hu, Hs. tauto.
Qed.

Lemma confirm_without_save_changes_nothing_witness :
  exists now w1,
    EmailAddressManager.confirm (Sample.env (Some 500%Z))
      (EmailAddressManager.mk None) "k3" None false Scenario.world
    = (Returns (EmailAddress.set_confirmed_at (Some now) Scenario.row3), w1)
    /\ same_store Scenario.world w1
    /\ In Scenario.row3 (email_address_table w1).
Proof.
  apply (confirm_without_save_changes_nothing (Sample.env (Some 500%Z))
           (EmailAddressManager.mk None) None Scenario.world Scenario.row3).
  - exact (proj1 (proj2 (proj2 scenario_world_ok))).
  - simpl. tauto.
  - reflexivity.
  - intros period E. injection E as <-. simpl. lia.
Defined.

(** X9: confirmation through a user is scoped to that user: the key of
    another user's row makes [confirm_email], and [confirm] with the [user]
    argument, raise [DoesNotExist] and change nothing, whatever the state of
    that row. *)
Theorem confirm_is_scoped_to_user (env : Env) (self : User.t) (save : bool)
    (w : World) (a : EmailAddress.t) :
  unique_keys w ->
  In a (email_address_table w) ->
  EmailAddress.user a <> User.pk self ->
  SimpleEmailConfirmationUserMixin.confirm_email env self (EmailAddress.key a)
    save w = (Raises DoesNotExist, w)
  /\ EmailAddressManager.confirm env (EmailAddressManager.mk None)
       (EmailAddress.key a) (Some self) save w = (Raises DoesNotExist, w).
Proof.
  intros Hk Hin Hother.
  assert (Hnone : forall mgr user,
    confirm_scope mgr user a = false ->
    QuerySet.by_key (EmailAddress.key a)
      (EmailAddressManager.confirm_queryset mgr user w) = []).
  { intros mgr user Hscope. rewrite confirm_queryset_filter.
    unfold QuerySet.by_key. apply filter_none.
    intros b Hb. apply filter_In in Hb. destruct Hb as [Hb Hsb].
    apply String.eqb_neq. intros Hkey.
    assert (b = a)
      by exact (NoDup_map_injective_on EmailAddress.key _ b a Hk Hb Hin Hkey).
    subst b. congruence. }
  apply Nat.eqb_neq in Hother.
  split.
  - unfold SimpleEmailConfirmationUserMixin.confirm_email,
      EmailAddressManager.confirm, bind, query.
    rewrite Hnone; [reflexivity|].
    unfold confirm_scope. simpl. now rewrite Hother.
  - unfold EmailAddressManager.confirm, bind, query.
    rewrite Hnone; [reflexivity|].
    unfold confirm_scope. simpl. now rewrite Hother.
Qed.

Lemma confirm_is_scoped_to_user_witness :
  SimpleEmailConfirmationUserMixin.confirm_email (Sample.env None)
    Sample.alice "k3" true Scenario.world
  = (Raises DoesNotExist, Scenario.world).
Proof.
  apply (proj1 (confirm_is_scoped_to_user (Sample.env None) Sample.alice true
                  Scenario.world Scenario.row3
                  (proj1 (proj2 (proj2 scenario_world_ok)))
                  (or_intror (or_intror (or_introl eq_refl)))
                  ltac:(discriminate))).
Defined.

(** * Beyond the claims: the two lists of a user's emails *)

Lemma filter_isnull_split (rows : list EmailAddress.t) :
  List.length (QuerySet.by_confirmed_at_isnull false rows)
  + List.length (QuerySet.by_confirmed_at_isnull true rows)
  = List.length rows.
Proof.
  unfold QuerySet.by_confirmed_at_isnull.
  induction rows as [|r rows IH]; simpl; [reflexivity|].
  destruct (EmailAddress.confirmed_at r); simpl; lia.
Qed.

(** X10: [get_confirmed_emails] and [get_unconfirmed_emails] split the
    user's addresses: an email is in one of the two lists exactly when the
    user has a row for it, the lists together are as long as the user's
    rows, and with unique [(user, email)] pairs no email is in both. *)
Theorem confirmed_and_unconfirmed_partition (self : User.t) (w : World) :
  exists confirmed unconfirmed,
    SimpleEmailConfirmationUserMixin.get_confirmed_emails self w
    = (Returns confirmed, w)
    /\ SimpleEmailConfirmationUserMixin.get_unconfirmed_emails self w
       = (Returns unconfirmed, w)
    /\ (forall email,
          In email confirmed \/ In email unconfirmed
          <-> has_address self email w)
    /\ List.length confirmed + List.length unconfirmed
       = List.length (QuerySet.by_user (User.pk self) (email_address_table w))
    /\ (unique_together w ->
        forall email, ~ (In email confirmed /\ In email unconfirmed)).
Proof.
  eexists. eexists. split; [reflexivity|]. split; [reflexivity|].
  unfold EmailAddressManager.all,
    SimpleEmailConfirmationUserMixin.email_address_set. simpl.
  assert (Hmem : forall isnull email,
    In email (map EmailAddress.email
                (QuerySet.by_confirmed_at_isnull isnull
                   (QuerySet.by_user (User.pk self) (email_address_table w))))
    <-> exists a, In a (email_address_table w)
                  /\ EmailAddress.user a = User.pk self
                  /\ EmailAddress.email a = email
                  /\ EmailAddressProperties.is_confirmed a = negb isnull).
  { intros isnull email. rewrite in_map_iff.
    unfold QuerySet.by_confirmed_at_isnull, QuerySet.by_user,
      EmailAddressProperties.is_confirmed.
    split.
    - intros [a [He Ha]]. apply filter_In in Ha. destruct Ha as [Ha Hn].
      apply filter_In in Ha. destruct Ha as [Ha Hu].
      apply Nat.eqb_eq in Hu. exists a. repeat split; auto.
      destruct (EmailAddress.confirmed_at a), isnull;
        simpl in *; congruence.
    - intros [a [Ha [Hu [He Hc]]]]. exists a. split; [assumption|].
      apply filter_In. split.
      + apply filter_In. split; [assumption | now apply Nat.eqb_eq].
      + destruct (EmailAddress.confirmed_at a), isnull;
          simpl in *; congruence. }
  split; [|split].
  - intros email. rewrite !Hmem. unfold has_address. split.
    + intros [[a Ha]|[a Ha]]; exists a; tauto.
    + intros [a [Ha [Hu He]]].
      destruct (EmailAddressProperties.is_confirmed a) eqn:Ec;
        [left | right]; exists a; tauto.
  - rewrite !length_map. apply filter_isnull_split.
  - intros Hut email [Hc Hu].
    apply Hmem in Hc. apply Hmem in Hu.
    destruct Hc as [a [Ha [Hau [Hae Hac]]]].
    destruct Hu as [b [Hb [Hbu [Hbe Hbc]]]].
    assert (a = b).
    { eapply (NoDup_map_injective_on
                (fun r => (EmailAddress.user r, EmailAddress.email r)));
        [exact Hut | exact Ha | exact Hb |].
      simpl. congruence. }
    subst b. simpl in *. congruence.
Qed.

Lemma confirmed_and_unconfirmed_partition_witness :
  exists confirmed unconfirmed,
    SimpleEmailConfirmationUserMixin.get_confirmed_emails Sample.alice
      Scenario.world = (Returns confirmed, Scenario.world)
    /\ SimpleEmailConfirmationUserMixin.get_unconfirmed_emails Sample.alice
         Scenario.world = (Returns unconfirmed, Scenario.world)
    /\ ~ (In "a@x.com" confirmed /\ In "a@x.com" unconfirmed).
Proof.
  destruct (confirmed_and_unconfirmed_partition Sample.alice Scenario.world)
    as [c [u [H1 [H2 [_ [_ H3]]]]]].
  exists c, u. split; [exact H1|]. split; [exact H2|].
  apply H3. exact (proj2 (proj2 (proj2 scenario_world_ok))).
Defined.

(** * Beyond the claims: resetting and removing *)

(** X11: [reset_email_confirmation] raises [DoesNotExist], changing nothing,
    when the user has no row for the address; when there is one and the
    generated key is new, it returns that key, sends no signal and the
    address is afterwards unconfirmed even if it was confirmed before: it
    is in the unconfirmed list and not in the confirmed one. *)
Theorem reset_email_confirmation_unconfirms (env : Env) (self : User.t)
    (email : string) (w : World) :
  ((forall a, In a (email_address_table w) ->
              EmailAddress.user a = User.pk self ->
              EmailAddress.email a <> email) ->
   SimpleEmailConfirmationUserMixin.reset_email_confirmation env self email w
   = (Raises DoesNotExist, w))
  /\ (forall a k,
        unique_together w ->
        In a (email_address_table w) ->
        EmailAddress.user a = User.pk self ->
        EmailAddress.email a = email ->
        fst (EmailAddressManager.generate_key env None w) = Returns k ->
        ~ In k (map EmailAddress.key (email_address_table w)) ->
        exists w',
          SimpleEmailConfirmationUserMixin.reset_email_confirmation env self
            email w = (Returns k, w')
          /\ sent w' = sent w
          /\ (exists emails,
                SimpleEmailConfirmationUserMixin.get_unconfirmed_emails self w'
                = (Returns emails, w') /\ In email emails)
          /\ (exists emails,
                SimpleEmailConfirmationUserMixin.get_confirmed_emails self w'
                = (Returns emails, w') /\ ~ In email emails)).
Proof.
  unfold SimpleEmailConfirmationUserMixin.reset_email_confirmation.
  split.
  - intros Hnone. unfold bind.
    now rewrite (get_address_missing self email w Hnone).
  - intros a k Hut Hin Hu He Hk Hfresh. unfold bind, call_on.
    rewrite (get_address_found self email w a Hut Hin Hu He).
    rewrite (reset_confirmation_run env a w k Hin Hk Hfresh). simpl.
    set (a' := EmailAddress.mk (EmailAddress.pk a) (EmailAddress.user a)
                 (EmailAddress.email a) k (wall_clock env (clock_reads w))
                 None).
    eexists. split; [reflexivity|]. simpl. split; [reflexivity|].
    set (fields := [EmailAddress.f_key; EmailAddress.f_set_at;
                    EmailAddress.f_confirmed_at]).
    split.
    + eexists. split; [reflexivity|].
      apply in_map_iff. exists a'. split; [exact He|].
      apply filter_In. split; [|reflexivity].
      apply filter_In. split; [|simpl; now apply Nat.eqb_eq].
      simpl. apply in_map_iff. exists a. split; [|assumption].
      unfold ORM.update_row. simpl. now rewrite Nat.eqb_refl.
    + eexists. split; [reflexivity|].
      intros Hc. apply in_map_iff in Hc. destruct Hc as [r' [Hre Hr']].
      apply filter_In in Hr'. destruct Hr' as [Hr' Hconf].
      apply filter_In in Hr'. destruct Hr' as [Hr' Hru].
      apply Nat.eqb_eq in Hru. simpl in Hr'.
      apply in_map_iff in Hr'. destruct Hr' as [r [<- Hr]].
      pose proof (update_row_owner a' fields r) as Hown.
      injection Hown as Hou Hoe.
      assert (r = a).
      { eapply (NoDup_map_injective_on
                  (fun r => (EmailAddress.user r, EmailAddress.email r)));
          [exact Hut | exact Hr | exact Hin |].
        simpl. congruence. }
      subst r. unfold ORM.update_row in Hconf. simpl in Hconf.
      rewrite Nat.eqb_refl in Hconf. discriminate.
Qed.

Lemma reset_email_confirmation_unconfirms_witness :
  SimpleEmailConfirmationUserMixin.reset_email_confirmation (Sample.env None)
    Sample.alice "d@x.com" Scenario.world
  = (Raises DoesNotExist, Scenario.world)
  /\ exists w',
       SimpleEmailConfirmationUserMixin.reset_email_confirmation
         (Sample.env None) Sample.alice "c@x.com" Scenario.world
       = (Returns "abcdefghijkl", w')
       /\ exists emails,
            SimpleEmailConfirmationUserMixin.get_confirmed_emails
              Sample.alice w' = (Returns emails, w')
            /\ ~ In "c@x.com" emails.
Proof.
  split.
  - apply (proj1 (reset_email_confirmation_unconfirms (Sample.env None)
                    Sample.alice "d@x.com" Scenario.world)).
    simpl. intros a [<-|[<-|[<-|[]]]]; simpl; intros; discriminate.
  - destruct (proj2 (reset_email_confirmation_unconfirms (Sample.env None)
                       Sample.alice "c@x.com" Scenario.world)
                Sample.row2 "abcdefghijkl")
      as [w' [H1 [_ [_ H2]]]].
    + exact (proj2 (proj2 (proj2 scenario_world_ok))).
    + simpl. tauto.
    + reflexivity.
    + reflexivity.
    + reflexivity.
    + simpl. intuition discriminate.
    + exists w'. split; [exact H1 | exact H2].
Defined.

(** X12: after [remove_email] has deleted the row of a non-primary address,
    the address is gone for every lookup: a second [remove_email] and
    [reset_email_confirmation] raise [DoesNotExist], and so does [confirm]
    with the key the row had. *)
Theorem removed_address_is_gone (env : Env) (self : User.t) (email : string)
    (w : World) (a : EmailAddress.t) :
  unique_together w ->
  unique_keys w ->
  email <> SimpleEmailConfirmationUserMixin.get_primary_email self ->
  In a (email_address_table w) ->
  EmailAddress.user a = User.pk self ->
  EmailAddress.email a = email ->
  exists w',
    SimpleEmailConfirmationUserMixin.remove_email self email w
    = (Returns tt, w')
    /\ SimpleEmailConfirmationUserMixin.remove_email self email w'
       = (Raises DoesNotExist, w')
    /\ SimpleEmailConfirmationUserMixin.reset_email_confirmation env self
         email w' = (Raises DoesNotExist, w')
    /\ (forall mgr user save,
          EmailAddressManager.confirm env mgr (EmailAddress.key a) user save
            w' = (Raises DoesNotExist, w')).
Proof.
  intros Hut Huk Hneq Hin Hu He.
  apply String.eqb_neq in Hneq.
  unfold SimpleEmailConfirmationUserMixin.remove_email at 1.
  rewrite Hneq. unfold bind at 1.
  rewrite (get_address_found self email w a Hut Hin Hu He).
  unfold ORM.delete. eexists. split; [reflexivity|].
  set (w' := with_email_address_table _ w).
  assert (Hrows : forall r, In r (email_address_table w') ->
            In r (email_address_table w)
            /\ EmailAddress.pk r <> EmailAddress.pk a).
  { intros r Hr. unfold w' in Hr. simpl in Hr. apply filter_In in Hr.
    destruct Hr as [Hr Hpk]. split; [assumption|].
    apply negb_true_iff in Hpk. now apply Nat.eqb_neq. }
  assert (Hnone : forall r, In r (email_address_table w') ->
            EmailAddress.user r = User.pk self ->
            EmailAddress.email r <> email).
  { intros r Hr Hru Hre. destruct (Hrows r Hr) as [Hr0 Hpk]. apply Hpk.
    f_equal.
    eapply (NoDup_map_injective_on
              (fun r => (EmailAddress.user r, EmailAddress.email r)));
      [exact Hut | exact Hr0 | exact Hin |].
    simpl. congruence. }
  split; [|split].
  - unfold SimpleEmailConfirmationUserMixin.remove_email. rewrite Hneq.
    unfold bind. now rewrite (get_address_missing self email w' Hnone).
  - unfold SimpleEmailConfirmationUserMixin.reset_email_confirmation, bind.
    now rewrite (get_address_missing self email w' Hnone).
  - intros mgr user save.
    unfold EmailAddressManager.confirm, bind, query.
    rewrite confirm_queryset_filter. unfold QuerySet.by_key.
    rewrite filter_none; [reflexivity|].
    intros r Hr. apply filter_In in Hr. destruct Hr as [Hr _].
    destruct (Hrows r Hr) as [Hr0 Hpk].
    apply String.eqb_neq. intros Hkey. apply Hpk. f_equal.
    exact (NoDup_map_injective_on EmailAddress.key _ r a Huk Hr0 Hin Hkey).
Qed.

Lemma removed_address_is_gone_witness :
  exists w',
    SimpleEmailConfirmationUserMixin.remove_email Sample.alice "c@x.com"
      Scenario.world = (Returns tt, w')
    /\ SimpleEmailConfirmationUserMixin.remove_email Sample.alice "c@x.com" w'
       = (Raises DoesNotExist, w').
Proof.
  destruct (removed_address_is_gone (Sample.env None) Sample.alice "c@x.com"
              Scenario.world Sample.row2)
    as [w' [H1 [H2 _]]].
  - exact (proj2 (proj2 (proj2 scenario_world_ok))).
  - exact (proj1 (proj2 (proj2 scenario_world_ok))).
  - discriminate.
  - simpl. tauto.
  - reflexivity.
  - reflexivity.
  - exists w'. split; [exact H1 | exact H2].
Defined.

(** X13: when the generated key is the key of another row,
    [reset_confirmation] raises [IntegrityError] from the update: tables
    and signals are unchanged, but the object in memory already carries the
    new key, the new [set_at] and [confirmed_at = None]. *)
Theorem reset_confirmation_key_collision (env : Env) (a b : EmailAddress.t)
    (w : World) (k : string) :
  In a (email_address_table w) ->
  In b (email_address_table w) ->
  EmailAddress.pk b <> EmailAddress.pk a ->
  fst (EmailAddressManager.generate_key env None w) = Returns k ->
  EmailAddress.key b = k ->
  exists w',
    reset_confirmation env (a, w)
    = (Raises IntegrityError,
       (EmailAddress.mk (EmailAddress.pk a) (EmailAddress.user a)
          (EmailAddress.email a) k (wall_clock env (clock_reads w)) None,
        w'))
    /\ same_store w w'.
Proof.
  intros Ha Hb Hpk Hk Hkey.
  unfold reset_confirmation, bind, on_world, assign, self_, ret.
  simpl fst. simpl snd.
  rewrite (generate_key_default env w k Hk). simpl.
  unfold ORM.save. simpl.
  rewrite (existsb_pk_In _ a Ha). simpl.
  assert (Hex : existsb
            (fun r => negb (Nat.eqb (EmailAddress.pk r) (EmailAddress.pk a))
                      && String.eqb (EmailAddress.key r) k)
            (email_address_table w) = true).
  { apply existsb_exists. exists b. split; [assumption|].
    apply andb_true_iff. split.
    - apply negb_true_iff. now apply Nat.eqb_neq.
    - now apply String.eqb_eq. }
  rewrite Hex. eexists. split; [reflexivity|].
  unfold same_store. simpl. tauto.
Qed.

Lemma reset_confirmation_key_collision_witness :
  exists w',
    reset_confirmation (mkEnv None (fun _ => 0%Z) (fun _ => "k"%char) 1%Z)
      (Scenario.row3,
       mkWorld [EmailAddress.mk 1 1 "a@x.com" "k" 0%Z None; Scenario.row3]
               4 [] [] 0 0)
    = (Raises IntegrityError,
       (EmailAddress.mk 3 3 "carol@x.com" "k" 0%Z None, w'))
    /\ same_store
         (mkWorld [EmailAddress.mk 1 1 "a@x.com" "k" 0%Z None; Scenario.row3]
                  4 [] [] 0 0) w'.
Proof.
  apply (reset_confirmation_key_collision
           (mkEnv None (fun _ => 0%Z) (fun _ => "k"%char) 1%Z)
           Scenario.row3 (EmailAddress.mk 1 1 "a@x.com" "k" 0%Z None)
           (mkWorld [EmailAddress.mk 1 1 "a@x.com" "k" 0%Z None;
                     Scenario.row3] 4 [] [] 0 0) "k").
  - simpl. tauto.
  - simpl. tauto.
  - simpl. discriminate.
  - reflexivity.
  - reflexivity.
Defined.

(** * Beyond the claims: the [post_save] hook *)

Lemma preserves_add_unconfirmed_email env self email key_length :
  preserves (SimpleEmailConfirmationUserMixin.add_unconfirmed_email env self
               email key_length).
Proof.
  unfold SimpleEmailConfirmationUserMixin.add_unconfirmed_email.
  apply preserves_bind; [apply preserves_create_unconfirmed|].
  intros address. apply preserves_ret.
Qed.

Lemma is_confirmed_of_row (self : User.t) (w : World) (a : EmailAddress.t) :
  unique_together w ->
  In a (email_address_table w) ->
  EmailAddress.user a = User.pk self ->
  EmailAddress.email a = User.email self ->
  SimpleEmailConfirmationUserMixin.is_confirmed self w
  = (Returns (EmailAddressProperties.is_confirmed a), w)
  /\ SimpleEmailConfirmationUserMixin.confirmed_at self w
     = (Returns (EmailAddress.confirmed_at a), w).
Proof.
  intros Hut Hin Hu He. split.
  - unfold SimpleEmailConfirmationUserMixin.is_confirmed,
      SimpleEmailConfirmationUserMixin.confirmed_emails,
      SimpleEmailConfirmationUserMixin.get_confirmed_emails,
      SimpleEmailConfirmationUserMixin.get_primary_email, bind, query, ret.
    simpl. f_equal. f_equal.
    pose proof (py_in_confirmed_emails self (User.email self) w) as Hpy.
    simpl in Hpy.
    destruct (EmailAddressProperties.is_confirmed a) eqn:Ec.
    + apply Hpy. exists a. tauto.
    + destruct (SimpleEmailConfirmationUserMixin.py_in _ _) eqn:Ep;
        [|reflexivity].
      destruct (proj1 Hpy eq_refl) as [b [Hb [Hbu [Hbe Hbc]]]].
      assert (b = a).
      { eapply (NoDup_map_injective_on
                  (fun r => (EmailAddress.user r, EmailAddress.email r)));
          [exact Hut | exact Hb | exact Hin |].
        simpl. congruence. }
      subst b. congruence.
  - unfold SimpleEmailConfirmationUserMixin.confirmed_at,
      SimpleEmailConfirmationUserMixin.get_primary_email, bind.
    now rewrite (get_address_found self (User.email self) w a Hut Hin Hu He).
Qed.

(** X14: the provisioning hook.  A [post_save] of another model, of an
    updated user, or with [SIMPLE_EMAIL_CONFIRMATION_AUTO_ADD] false does
    nothing.  For a created user without a row for the primary address
    (and a new generated key) the hook inserts one unconfirmed row for it
    and sends [unconfirmed_email_created]; the user is then not confirmed,
    and after [confirm_email] with that key (period not run out) the user
    [is_confirmed], [confirmed_at] is set, and exactly one
    [email_confirmed] was sent. *)
Theorem auto_add_then_confirm (env : Env) (setting : option bool)
    (user : User.t) (w : World) (k : string) :
  (forall created, on_post_save env setting (post_save_other created) w
                   = (Returns tt, w))
  /\ on_post_save env setting (post_save_user user false) w = (Returns tt, w)
  /\ (forall signal, on_post_save env (Some false) signal w = (Returns tt, w))
  /\ (setting <> Some false ->
      store_ok w ->
      (forall a, In a (email_address_table w) ->
                 EmailAddress.user a = User.pk user ->
                 EmailAddress.email a <> User.email user) ->
      fst (EmailAddressManager.generate_key env None w) = Returns k ->
      ~ In k (map EmailAddress.key (email_address_table w)) ->
      (forall period,
          SIMPLE_EMAIL_CONFIRMATION_PERIOD env = Some period ->
          (wall_clock env (S (clock_reads w))
           < wall_clock env (clock_reads w) + period)%Z) ->
      exists w1 w2 now,
        on_post_save env setting (post_save_user user true) w
        = (Returns tt, w1)
        /\ email_address_table w1
           = email_address_table w
             ++ [EmailAddress.mk (email_address_next_pk w) (User.pk user)
                   (User.email user) k (wall_clock env (clock_reads w)) None]
        /\ SimpleEmailConfirmationUserMixin.is_confirmed user w1
           = (Returns false, w1)
        /\ SimpleEmailConfirmationUserMixin.confirm_email env user k true w1
           = (Returns (User.email user), w2)
        /\ SimpleEmailConfirmationUserMixin.is_confirmed user w2
           = (Returns true, w2)
        /\ SimpleEmailConfirmationUserMixin.confirmed_at user w2
           = (Returns (Some now), w2)
        /\ sent w2
           = sent w ++ [unconfirmed_email_created (User.pk user)
                          (User.email user);
                        email_confirmed (User.pk user) (User.email user)]).
Proof.
  split; [|split; [|split]].
  - intros created. unfold on_post_save. now destruct setting as [[|]|].
  - unfold on_post_save. now destruct setting as [[|]|].
  - intros signal. reflexivity.
  - intros Hset Hok Hnone Hk Hfresh Hperiod.
    assert (Hon : on_post_save env setting (post_save_user user true) w
                  = auto_add env (post_save_user user true) w).
    { unfold on_post_save. destruct setting as [[|]|]; congruence. }
    destruct (add_unconfirmed_email_run env user (User.email user) None w k
                Hnone Hk Hfresh) as [draws Hrun].
    pose proof (preserves_add_unconfirmed_email env user (User.email user)
                  None w Hok) as Hok1.
    rewrite Hrun in Hok1. simpl in Hok1.
    set (a := EmailAddress.mk (email_address_next_pk w) (User.pk user)
                (User.email user) k (wall_clock env (clock_reads w)) None)
      in *.
    set (w1 := mkWorld _ _ _ _ _ _) in *.
    destruct Hok1 as [_ [_ [Huk1 Hut1]]].
    assert (Hin1 : In a (email_address_table w1)).
    { unfold w1. simpl. apply in_app_iff. right. now left. }
    assert (Hq1 : In a (EmailAddressManager.confirm_queryset
                          (SimpleEmailConfirmationUserMixin.email_address_set
                             user) None w1)).
    { rewrite confirm_queryset_filter. apply filter_In.
      split; [exact Hin1|].
      unfold confirm_scope. simpl. now rewrite Nat.eqb_refl. }
    destruct (confirm_run env _ None w1 a Huk1 Hq1 eq_refl)
      as [now [w2 [Hc [Ht [Hs _]]]]].
    { intros period Hp. simpl. now apply Hperiod. }
    set (a' := EmailAddress.set_confirmed_at (Some now) a) in *.
    assert (Hin2 : In a' (email_address_table w2)).
    { rewrite Ht. apply in_map_iff. exists a. split; [|exact Hin1].
      apply update_row_self. }
    assert (Hut2 : unique_together w2).
    { unfold unique_together. rewrite Ht, map_map.
      erewrite map_ext; [exact Hut1|]. intros r. apply update_row_owner. }
    exists w1, w2, now.
    split.
    { rewrite Hon. unfold auto_add, bind.
      unfold SimpleEmailConfirmationUserMixin.get_primary_email.
      rewrite Hrun. reflexivity. }
    split; [reflexivity|].
    split.
    { exact (proj1 (is_confirmed_of_row user w1 a Hut1 Hin1 eq_refl
                      eq_refl)). }
    split.
    { unfold SimpleEmailConfirmationUserMixin.confirm_email, bind.
      change k with (EmailAddress.key a). rewrite Hc. reflexivity. }
    split.
    { exact (proj1 (is_confirmed_of_row user w2 a' Hut2 Hin2 eq_refl
                      eq_refl)). }
    split.
    { exact (proj2 (is_confirmed_of_row user w2 a' Hut2 Hin2 eq_refl
                      eq_refl)). }
    rewrite Hs. unfold w1. simpl. rewrite <- app_assoc. reflexivity.
Qed.

Lemma auto_add_then_confirm_witness :
  exists w1 w2 now,
    on_post_save (Sample.env None) None (post_save_user Sample.bob true)
      Scenario.world = (Returns tt, w1)
    /\ SimpleEmailConfirmationUserMixin.confirm_email (Sample.env None)
         Sample.bob "abcdefghijkl" true w1 = (Returns "b@x.com", w2)
    /\ SimpleEmailConfirmationUserMixin.confirmed_at Sample.bob w2
       = (Returns (Some now), w2).
Proof.
  destruct (proj2 (proj2 (proj2 (auto_add_then_confirm (Sample.env None) None
                                   Sample.bob Scenario.world
                                   "abcdefghijkl"))))
    as [w1 [w2 [now [H1 [_ [_ [H2 [_ [H3 _]]]]]]]]].
  - discriminate.
  - exact scenario_world_ok.
  - simpl. intros a [<-|[<-|[<-|[]]]]; simpl; intros; discriminate.
  - reflexivity.
  - simpl. intuition discriminate.
  - discriminate.
  - exists w1, w2, now. split; [exact H1|]. split; [exact H2 | exact H3].
Defined.

(** * Beyond the claims: the primary address *)

(** X15: when the primary address has a row (and [(user, email)] pairs are
    unique), the two derived properties agree: [is_confirmed] is true
    exactly when [confirmed_at] returns a timestamp, and neither raises. *)
Theorem primary_accessors_agree (self : User.t) (w : World)
    (a : EmailAddress.t) :
  unique_together w ->
  In a (email_address_table w) ->
  EmailAddress.user a = User.pk self ->
  EmailAddress.email a
  = SimpleEmailConfirmationUserMixin.get_primary_email self ->
  exists confirmed stamp,
    SimpleEmailConfirmationUserMixin.is_confirmed self w
    = (Returns confirmed, w)
    /\ SimpleEmailConfirmationUserMixin.confirmed_at self w
       = (Returns stamp, w)
    /\ stamp = EmailAddress.confirmed_at a
    /\ (confirmed = true <-> exists t, stamp = Some t).
Proof.
  intros Hut Hin Hu He.
  destruct (is_confirmed_of_row self w a Hut Hin Hu He) as [H1 H2].
  exists (EmailAddressProperties.is_confirmed a), (EmailAddress.confirmed_at a).
  split; [exact H1|]. split; [exact H2|]. split; [reflexivity|].
  unfold EmailAddressProperties.is_confirmed.
  destruct (EmailAddress.confirmed_at a) as [t|].
  - split; [intros _; now exists t | reflexivity].
  - split; [discriminate | intros [t Ht]; discriminate].
Qed.

Lemma primary_accessors_agree_witness :
  exists confirmed stamp,
    SimpleEmailConfirmationUserMixin.is_confirmed Sample.alice Scenario.world
    = (Returns confirmed, Scenario.world)
    /\ SimpleEmailConfirmationUserMixin.confirmed_at Sample.alice
         Scenario.world = (Returns stamp, Scenario.world)
    /\ stamp = None.
Proof.
  destruct (primary_accessors_agree Sample.alice Scenario.world Sample.row1)
    as [c [s [H1 [H2 [H3 _]]]]].
  - exact (proj2 (proj2 (proj2 scenario_world_ok))).
  - simpl. tauto.
  - reflexivity.
  - reflexivity.
  - exists c, s. split; [exact H1|]. split; [exact H2 | exact H3].
Defined.

(** What a successful [set_primary_email] does. *)
Lemma set_primary_email_run (self : User.t) (email : string)
    (require_confirmed : bool) (w : World) :
  email <> User.email self ->
  (exists a, In a (email_address_table w)
             /\ EmailAddress.user a = User.pk self
             /\ EmailAddress.email a = email
             /\ EmailAddressProperties.is_confirmed a = true)
  \/ require_confirmed = false ->
  (exists r, In r (user_table w) /\ User.pk r = User.pk self) ->
  SimpleEmailConfirmationUserMixin.set_primary_email email require_confirmed
    (self, w)
  = (Returns tt,
     (User.set_email email self,
      {| email_address_table := email_address_table w;
         email_address_next_pk := email_address_next_pk w;
         user_table :=
           map (fun r => if Nat.eqb (User.pk r) (User.pk self)
                         then User.set_email email r else r) (user_table w);
         sent := sent w ++ [primary_email_changed (User.pk self)
                              (User.email self) email];
         clock_reads := clock_reads w; random_draws := random_draws w |})).
Proof.
  intros Hneq Hallowed [r [Hr Hpk]]. apply String.eqb_neq in Hneq.
  unfold SimpleEmailConfirmationUserMixin.set_primary_email,
    SimpleEmailConfirmationUserMixin.confirmed_emails,
    SimpleEmailConfirmationUserMixin.get_confirmed_emails,
    SimpleEmailConfirmationUserMixin.get_primary_email,
    bind, self_, on_world, query, ret, raise, assign.
  simpl. rewrite Hneq.
  pose proof (py_in_confirmed_emails self email w) as Hin.
  assert (Hex : existsb (fun r0 => Nat.eqb (User.pk r0) (User.pk self))
                  (user_table w) = true).
  { apply existsb_exists. exists r. split; [assumption|].
    now apply Nat.eqb_eq. }
  destruct (SimpleEmailConfirmationUserMixin.py_in email _) eqn:E;
    [|destruct Hallowed as [Hc| ->];
      [apply Hin in Hc; discriminate|]];
    simpl; unfold ORM.save_user_email; simpl;
    rewrite Hex; reflexivity.
Qed.



(** X17: the protection against removal moves with the primary address:
    before a successful [set_primary_email] the old primary cannot be
    removed; afterwards the new one cannot ([EmailIsPrimary]) and the row of
    the old one can. *)
Theorem primary_protection_moves (self : User.t) (email : string)
    (require_confirmed : bool) (w : World) (old_row : EmailAddress.t) :
  unique_together w ->
  email <> SimpleEmailConfirmationUserMixin.get_primary_email self ->
  (exists a, In a (email_address_table w)
             /\ EmailAddress.user a = User.pk self
             /\ EmailAddress.email a = email
             /\ EmailAddressProperties.is_confirmed a = true)
  \/ require_confirmed = false ->
  (exists r, In r (user_table w) /\ User.pk r = User.pk self) ->
  In old_row (email_address_table w) ->
  EmailAddress.user old_row = User.pk self ->
  EmailAddress.email old_row
  = SimpleEmailConfirmationUserMixin.get_primary_email self ->
  SimpleEmailConfirmationUserMixin.remove_email self
    (SimpleEmailConfirmationUserMixin.get_primary_email self) w
  = (Raises EmailIsPrimary, w)
  /\ exists self' w',
       SimpleEmailConfirmationUserMixin.set_primary_email email
         require_confirmed (self, w) = (Returns tt, (self', w'))
       /\ SimpleEmailConfirmationUserMixin.get_primary_email self' = email
       /\ SimpleEmailConfirmationUserMixin.remove_email self' email w'
          = (Raises EmailIsPrimary, w')
       /\ exists w'',
            SimpleEmailConfirmationUserMixin.remove_email self'
              (SimpleEmailConfirmationUserMixin.get_primary_email self) w'
            = (Returns tt, w'')
            /\ ~ In old_row (email_address_table w'').
Proof.
  unfold SimpleEmailConfirmationUserMixin.get_primary_email.
  intros Hut Hneq Hallowed Hstored Hin Hu He.
  split.
  - unfold SimpleEmailConfirmationUserMixin.remove_email,
      SimpleEmailConfirmationUserMixin.get_primary_email.
    now rewrite String.eqb_refl.
  - rewrite (set_primary_email_run self email require_confirmed w Hneq
               Hallowed Hstored).
    eexists. eexists. split; [reflexivity|]. split; [reflexivity|].
    set (w' := mkWorld _ _ _ _ _ _).
    split.
    + unfold SimpleEmailConfirmationUserMixin.remove_email,
        SimpleEmailConfirmationUserMixin.get_primary_email. simpl.
      now rewrite String.eqb_refl.
    + unfold SimpleEmailConfirmationUserMixin.remove_email,
        SimpleEmailConfirmationUserMixin.get_primary_email. simpl.
      assert (Hb : String.eqb (User.email self) email = false).
      { apply String.eqb_neq. congruence. }
      rewrite Hb. unfold bind.
      rewrite (get_address_found (User.set_email email self)
                 (User.email self) w' old_row Hut Hin Hu He).
      unfold ORM.delete. eexists. split; [reflexivity|]. simpl.
      intros Hin'. apply filter_In in Hin'. destruct Hin' as [_ Hpk].
      rewrite Nat.eqb_refl in Hpk. discriminate.
Qed.

Lemma primary_protection_moves_witness :
  exists self' w',
    SimpleEmailConfirmationUserMixin.set_primary_email "c@x.com" true
      (Sample.alice, Scenario.world) = (Returns tt, (self', w'))
    /\ SimpleEmailConfirmationUserMixin.remove_email self' "c@x.com" w'
       = (Raises EmailIsPrimary, w').
Proof.
  destruct (proj2 (primary_protection_moves Sample.alice "c@x.com" true
                     Scenario.world Sample.row1
                     (proj2 (proj2 (proj2 scenario_world_ok)))
                     ltac:(discriminate)
                     (or_introl (ex_intro _ Sample.row2
                        (conj (or_intror (or_introl eq_refl))
                           (conj eq_refl (conj eq_refl eq_refl)))))
                     (ex_intro _ Sample.alice
                        (conj (or_introl eq_refl) eq_refl))
                     (or_introl eq_refl) eq_refl eq_refl))
    as [self' [w' [H1 [_ [H2 _]]]]].
  exists self', w'. split; [exact H1 | exact H2].
Defined.

(** X18: [get_confirmation_key] falls back to the primary address both for
    no argument and for the empty string, which is what the deprecated
    [confirmation_key] returns too; for a non-empty address with a row it
    returns that row's key, and without a row it raises [DoesNotExist]. *)
Theorem get_confirmation_key_lookup (self : User.t) (w : World) :
  SimpleEmailConfirmationUserMixin.get_confirmation_key self (Some "") w
  = SimpleEmailConfirmationUserMixin.get_confirmation_key self None w
  /\ SimpleEmailConfirmationUserMixin.confirmation_key self w
     = SimpleEmailConfirmationUserMixin.get_confirmation_key self None w
  /\ (unique_together w ->
      forall a, In a (email_address_table w) ->
                EmailAddress.user a = User.pk self ->
                EmailAddress.email a <> "" ->
                SimpleEmailConfirmationUserMixin.get_confirmation_key self
                  (Some (EmailAddress.email a)) w
                = (Returns (EmailAddress.key a), w))
  /\ (forall email,
        email <> "" ->
        (forall a, In a (email_address_table w) ->
                   EmailAddress.user a = User.pk self ->
                   EmailAddress.email a <> email) ->
        SimpleEmailConfirmationUserMixin.get_confirmation_key self
          (Some email) w = (Raises DoesNotExist, w)).
Proof.
  unfold SimpleEmailConfirmationUserMixin.confirmation_key,
    SimpleEmailConfirmationUserMixin.get_confirmation_key.
  split; [reflexivity|]. split; [|split].
  - destruct (String.eqb _ "") eqn:E; [|reflexivity].
    apply String.eqb_eq in E. now rewrite E.
  - intros Hut a Hin Hu Hne. apply String.eqb_neq in Hne. rewrite Hne.
    unfold bind.
    now rewrite (get_address_found self _ w a Hut Hin Hu eq_refl).
  - intros email Hne Hnone. apply String.eqb_neq in Hne. rewrite Hne.
    unfold bind. now rewrite (get_address_missing self email w Hnone).
Qed.

Lemma get_confirmation_key_lookup_witness :
  SimpleEmailConfirmationUserMixin.get_confirmation_key Sample.alice
    (Some "c@x.com") Scenario.world = (Returns "k2", Scenario.world)
  /\ SimpleEmailConfirmationUserMixin.get_confirmation_key Sample.alice
       (Some "carol@x.com") Scenario.world
     = (Raises DoesNotExist, Scenario.world).
Proof.
  pose proof (get_confirmation_key_lookup Sample.alice Scenario.world)
    as [_ [_ [H1 H2]]].
  split.
  - apply (H1 (proj2 (proj2 (proj2 scenario_world_ok))) Sample.row2).
    + simpl. tauto.
    + reflexivity.
    + discriminate.
  - apply H2; [discriminate|].
    simpl. intros a [<-|[<-|[<-|[]]]]; simpl; intros; discriminate.
Defined.

Lemma filter_after_update {Row} (keep : Row -> bool) (update : Row -> Row)
    (rows : list Row) (Hkeep : forall r, keep (update r) = keep r) :
  filter keep (map update rows) = map update (filter keep rows).
Proof.
  induction rows as [|r rows IH]; simpl; [reflexivity|].
  rewrite Hkeep. destruct (keep r); simpl; now rewrite IH.
Qed.

Lemma user_row_selected (users : list User.t) (r0 : User.t) :
  NoDup (map User.pk users) ->
  In r0 users ->
  filter (fun u => Nat.eqb (User.pk u) (User.pk r0)) users = [r0].
Proof.
  intros Hnd Hin. apply filter_singleton; auto.
  - exact (NoDup_of_map _ _ Hnd).
  - apply Nat.eqb_refl.
  - intros b Hb Hpk. apply Nat.eqb_eq in Hpk.
    exact (NoDup_map_injective_on User.pk _ b r0 Hnd Hb Hin Hpk).
Qed.

(** X19: [is_primary] follows [set_primary_email]: after a successful call
    (user rows with unique primary keys), a row of the user is primary
    exactly when its email is the new primary address, and [is_primary] of
    rows of other users is what it was. *)
Theorem is_primary_follows_set_primary_email (self : User.t) (email : string)
    (require_confirmed : bool) (w : World) :
  NoDup (map User.pk (user_table w)) ->
  email <> SimpleEmailConfirmationUserMixin.get_primary_email self ->
  (exists a, In a (email_address_table w)
             /\ EmailAddress.user a = User.pk self
             /\ EmailAddress.email a = email
             /\ EmailAddressProperties.is_confirmed a = true)
  \/ require_confirmed = false ->
  (exists r, In r (user_table w) /\ User.pk r = User.pk self) ->
  exists self' w',
    SimpleEmailConfirmationUserMixin.set_primary_email email
      require_confirmed (self, w) = (Returns tt, (self', w'))
    /\ (forall a, EmailAddress.user a = User.pk self ->
                  is_primary a w'
                  = (Returns (String.eqb email (EmailAddress.email a)), w'))
    /\ (forall a, EmailAddress.user a <> User.pk self ->
                  fst (is_primary a w') = fst (is_primary a w)).
Proof.
  unfold SimpleEmailConfirmationUserMixin.get_primary_email.
  intros Hnd Hneq Hallowed Hstored.
  rewrite (set_primary_email_run self email require_confirmed w Hneq
             Hallowed Hstored).
  eexists. eexists. split; [reflexivity|].
  destruct Hstored as [r0 [Hr0 Hpk0]].
  set (update := fun r => if Nat.eqb (User.pk r) (User.pk self)
                          then User.set_email email r else r).
  assert (Hpk : forall p r, Nat.eqb (User.pk (update r)) p
                            = Nat.eqb (User.pk r) p).
  { intros p r. unfold update. now destruct (Nat.eqb (User.pk r) _). }
  split.
  - intros a Ha. unfold is_primary, get_user, bind, query, ret. simpl.
    fold update.
    rewrite (filter_after_update _ update _ (Hpk (EmailAddress.user a))).
    rewrite Ha, <- Hpk0, (user_row_selected _ r0 Hnd Hr0). simpl.
    unfold update. rewrite Hpk0, Nat.eqb_refl. reflexivity.
  - intros a Ha. unfold is_primary, get_user, bind, query, ret. simpl.
    fold update.
    rewrite (filter_after_update _ update _ (Hpk (EmailAddress.user a))).
    assert (Hsame : map update
                      (filter (fun u => Nat.eqb (User.pk u)
                                                (EmailAddress.user a))
                              (user_table w))
                    = filter (fun u => Nat.eqb (User.pk u)
                                               (EmailAddress.user a))
                             (user_table w)).
    { rewrite <- (map_id (filter _ _)) at 2. apply map_ext_in.
      intros u Hu. apply filter_In in Hu. destruct Hu as [_ Hu].
      apply Nat.eqb_eq in Hu. unfold update.
      destruct (Nat.eqb_spec (User.pk u) (User.pk self)) as [E|E];
        [congruence | reflexivity]. }
    rewrite Hsame.
    destruct (filter _ (user_table w)) as [|u [|u' rest]]; reflexivity.
Qed.

Lemma is_primary_follows_set_primary_email_witness :
  exists self' w',
    SimpleEmailConfirmationUserMixin.set_primary_email "c@x.com" true
      (Sample.alice, Scenario.world) = (Returns tt, (self', w'))
    /\ is_primary Sample.row2 w' = (Returns true, w')
    /\ is_primary Sample.row1 w' = (Returns false, w').
Proof.
  destruct (is_primary_follows_set_primary_email Sample.alice "c@x.com" true
              Scenario.world)
    as [self' [w' [H1 [H2 _]]]].
  - simpl. repeat constructor; simpl; intuition discriminate.
  - discriminate.
  - left. exists Sample.row2. simpl. tauto.
  - exists Sample.alice. simpl. tauto.
  - exists self', w'. split; [exact H1|]. split.
    + exact (H2 Sample.row2 eq_refl).
    + exact (H2 Sample.row1 eq_refl).
Defined.

(** * Beyond the claims: [add_email_if_not_exists] twice *)

(** X20: calling [add_email_if_not_exists] twice for an address the user
    does not have (both generated keys new): the first call inserts an
    unconfirmed row and returns its key; the second inserts nothing, sends
    nothing, resets the row and returns a different key, after which
    [confirm] with the first key raises [DoesNotExist]. *)
Theorem add_email_if_not_exists_twice (env : Env) (self : User.t)
    (email : string) (w : World) (k1 : string) :
  unique_together w ->
  unique_keys w ->
  (forall a, In a (email_address_table w) ->
             EmailAddress.user a = User.pk self ->
             EmailAddress.email a <> email) ->
  fst (EmailAddressManager.generate_key env None w) = Returns k1 ->
  ~ In k1 (map EmailAddress.key (email_address_table w)) ->
  exists w1,
    SimpleEmailConfirmationUserMixin.add_email_if_not_exists env self email w
    = (Returns (Some k1), w1)
    /\ List.length (email_address_table w1)
       = S (List.length (email_address_table w))
    /\ forall k2,
         fst (EmailAddressManager.generate_key env None w1) = Returns k2 ->
         ~ In k2 (k1 :: map EmailAddress.key (email_address_table w)) ->
         exists w2,
           SimpleEmailConfirmationUserMixin.add_email_if_not_exists env self
             email w1 = (Returns (Some k2), w2)
           /\ k2 <> k1
           /\ List.length (email_address_table w2)
              = List.length (email_address_table w1)
           /\ sent w2 = sent w1
           /\ (forall mgr user save,
                 EmailAddressManager.confirm env mgr k1 user save w2
                 = (Raises DoesNotExist, w2)).
Proof.
  intros Hut Huk Hnone Hk1 Hfresh1.
  destruct (add_unconfirmed_email_run env self email None w k1
              Hnone Hk1 Hfresh1) as [draws Hrun].
  set (a1 := EmailAddress.mk (email_address_next_pk w) (User.pk self) email k1
               (wall_clock env (clock_reads w)) None) in *.
  set (w1 := mkWorld _ _ _ _ _ _) in *.
  exists w1. split.
  { unfold SimpleEmailConfirmationUserMixin.add_email_if_not_exists,
      try_except_else.
    rewrite (get_address_missing self email w Hnone). simpl.
    unfold bind. rewrite Hrun. reflexivity. }
  split.
  { unfold w1. simpl. rewrite length_app. simpl. lia. }
  intros k2 Hk2 Hfresh2.
  assert (Hut1 : unique_together w1).
  { unfold unique_together, w1. simpl. apply unique_together_snoc; auto. }
  assert (Huk1 : unique_keys w1).
  { unfold unique_keys, w1. simpl. rewrite map_app. simpl.
    now apply NoDup_snoc. }
  assert (Hin1 : In a1 (email_address_table w1)).
  { unfold w1. simpl. apply in_app_iff. right. now left. }
  assert (Hfresh2' : ~ In k2 (map EmailAddress.key (email_address_table w1))).
  { unfold w1. simpl. rewrite map_app, in_app_iff. simpl.
    simpl in Hfresh2. intuition congruence. }
  assert (Hneq : k2 <> k1).
  { intros ->. apply Hfresh2. now left. }
  pose proof (reset_confirmation_run env a1 w1 k2 Hin1 Hk2 Hfresh2') as Hreset.
  cbv zeta in Hreset.
  eexists. split.
  { unfold SimpleEmailConfirmationUserMixin.add_email_if_not_exists,
      try_except_else.
    rewrite (get_address_found self email w1 a1 Hut1 Hin1 eq_refl eq_refl).
    simpl. unfold bind, call_on. rewrite Hreset. reflexivity. }
  simpl. split; [exact Hneq|]. split; [apply length_map|].
  split; [reflexivity|].
  intros mgr user save.
  unfold EmailAddressManager.confirm, bind, query.
  rewrite confirm_queryset_filter. unfold QuerySet.by_key.
  rewrite filter_none; [reflexivity|].
  intros b Hb. apply filter_In in Hb. destruct Hb as [Hb _]. simpl in Hb.
  apply in_map_iff in Hb. destruct Hb as [r [<- Hr]].
  apply String.eqb_neq. rewrite update_row_key. simpl.
  destruct (Nat.eqb_spec (EmailAddress.pk r) (email_address_next_pk w))
    as [E|E]; simpl; [exact Hneq|].
  intros Hkey. apply E.
  assert (r = a1)
    by exact (NoDup_map_injective_on EmailAddress.key _ r a1 Huk1 Hr Hin1
                Hkey).
  subst r. reflexivity.
Qed.

Lemma add_email_if_not_exists_twice_witness :
  exists w1 w2,
    SimpleEmailConfirmationUserMixin.add_email_if_not_exists (Sample.env None)
      Scenario.carol "c2@x.com" Scenario.world
    = (Returns (Some "abcdefghijkl"), w1)
    /\ SimpleEmailConfirmationUserMixin.add_email_if_not_exists
         (Sample.env None) Scenario.carol "c2@x.com" w1
       = (Returns (Some "mnopqrstuvwx"), w2).
Proof.
  destruct (add_email_if_not_exists_twice (Sample.env None) Scenario.carol
              "c2@x.com" Scenario.world "abcdefghijkl")
    as [w1 [H1 [_ H2]]].
  - exact (proj2 (proj2 (proj2 scenario_world_ok))).
  - exact (proj1 (proj2 (proj2 scenario_world_ok))).
  - simpl. intros a [<-|[<-|[<-|[]]]]; simpl; intros; discriminate.
  - reflexivity.
  - simpl. intuition discriminate.
  - destruct (H2 "mnopqrstuvwx") as [w2 [H3 _]].
    + pose proof (f_equal snd H1) as Hw1. simpl in Hw1. rewrite <- Hw1.
      reflexivity.
    + simpl. intuition discriminate.
    + exists w1, w2. split; [exact H1 | exact H3].
Defined.
